(** * league_win_loss: the schedule extractor and the streak analyzer

    A shallow embedding of the two Streamlit scripts [app.py] and [max.py]:
    [scrape_league] (the extractor), [get_team_results] and
    [find_game_streaks] / [find_3_game_streaks] (the analyzer).

    Python [str] values are lists of Unicode code points, Python [int]s are
    [Z], dictionaries are [gmap]s, sets are [gset]s, a [DataFrame] built from
    a list of dictionaries is the list of its rows, and a Python exception
    is the [Raise] branch of [Exc]. *)

From Stdlib Require Import ZArith NArith Lia String Ascii.
From stdpp Require Import base option list gmap sorting.

Open Scope Z_scope.

(** ** Python strings *)

Definition pystr := list N.

(** Decoding of a UTF-8 source literal into code points, so that the string
    literals of the scripts can be written as they appear there. *)
Fixpoint utf8_decode (bs : list N) : pystr :=
  match bs with
  | [] => []
  | b0 :: r0 =>
    if (b0 <? 128)%N then b0 :: utf8_decode r0 else
    match r0 with
    | [] => [b0]
    | b1 :: r1 =>
      if (b0 <? 224)%N then ((b0 mod 32) * 64 + b1 mod 64)%N :: utf8_decode r1 else
      match r1 with
      | [] => [b0; b1]
      | b2 :: r2 =>
        if (b0 <? 240)%N
        then ((b0 mod 16) * 4096 + (b1 mod 64) * 64 + b2 mod 64)%N :: utf8_decode r2
        else
        match r2 with
        | [] => [b0; b1; b2]
        | b3 :: r3 =>
          ((b0 mod 8) * 262144 + (b1 mod 64) * 4096 + (b2 mod 64) * 64 + b3 mod 64)%N
            :: utf8_decode r3
        end
      end
    end
  end.

Definition u (s : string) : pystr :=
  utf8_decode (N_of_ascii <$> list_ascii_of_string s).

Definition hyphen : N := 45.      (* '-' *)
Definition en_dash : N := 8211.   (* U+2013 *)

(** [str.isspace] on one code point: the characters [str.strip()] removes. *)
Definition isspace (c : N) : bool :=
  ((9 <=? c) && (c <=? 13) || (28 <=? c) && (c <=? 32)
   || (c =? 133) || (c =? 160) || (c =? 5760)
   || (8192 <=? c) && (c <=? 8202)
   || (c =? 8232) || (c =? 8233) || (c =? 8239) || (c =? 8287) || (c =? 12288))%N.

Fixpoint lstrip (s : pystr) : pystr :=
  match s with
  | [] => []
  | c :: r => if isspace c then lstrip r else s
  end.

Definition rstrip (s : pystr) : pystr := reverse (lstrip (reverse s)).

(** [s.strip()] *)
Definition strip (s : pystr) : pystr := rstrip (lstrip s).

(** [c in s] for a one-character [c]. *)
Definition contains (c : N) (s : pystr) : bool := bool_decide (c ∈ s).

(** [s.split(sep)] for a one-character separator: every occurrence splits. *)
Fixpoint split (sep : N) (s : pystr) : list pystr :=
  match s with
  | [] => [[]]
  | c :: r =>
    if (c =? sep)%N then [] :: split sep r
    else match split sep r with
         | p :: ps => (c :: p) :: ps
         | [] => [[c]]
         end
  end.

(** [s.startswith(p)] *)
Fixpoint startswith (s p : pystr) : bool :=
  match p, s with
  | [], _ => true
  | _ :: _, [] => false
  | a :: p', b :: s' => (a =? b)%N && startswith s' p'
  end.

(** Code-point comparison of two strings, as Python's [<], [==], [>]. *)
Fixpoint str_cmp (a b : pystr) : comparison :=
  match a, b with
  | [], [] => Eq
  | [], _ :: _ => Lt
  | _ :: _, [] => Gt
  | x :: a', y :: b' =>
    match (x ?= y)%N with
    | Eq => str_cmp a' b'
    | c => c
    end
  end.

(** [a <= b] on strings. *)
Definition str_leb (a b : pystr) : bool :=
  match str_cmp a b with Gt => false | _ => true end.

(** ** Exceptions *)

Inductive exn := KeyError | ValueError | IndexError | AttributeError.

Inductive Exc (A : Type) :=
| Ok (a : A)
| Raise (e : exn).
Arguments Ok {A} a.
Arguments Raise {A} e.

Global Instance Exc_ret : MRet Exc := λ A, Ok.
Global Instance Exc_bind : MBind Exc := λ A B k m,
  match m with
  | Ok a => k a
  | Raise e => Raise e
  end.

(** [o] when present, else raise [e]. *)
Definition or_raise {A} (e : exn) (o : option A) : Exc A :=
  match o with
  | Some a => Ok a
  | None => Raise e
  end.

(** ** [int(s)] on a string

    The parts of the interpreter that no script fixes: the decimal value of
    a non-ASCII digit ([Py_UNICODE_TODECIMAL]) and the limit on the number
    of digits ([sys.get_int_max_str_digits()], [0] when there is none). *)
Record PyEnv := {
  unicode_decimal : N → option N;
  int_max_str_digits : nat
}.

Section PyInt.
Context (env : PyEnv).

(** Whitespace as [int] sees it, after non-ASCII spaces are turned into
    [' ']: the ASCII ones of [Py_ISSPACE], and the non-ASCII ones of
    [str.isspace]. *)
Definition int_isspace (c : N) : bool :=
  if (c <? 128)%N then ((9 <=? c) && (c <=? 13) || (c =? 32))%N else isspace c.

(** The value of [c] as a decimal digit. *)
Definition digit_value (c : N) : option N :=
  if (c <? 128)%N
  then (if (48 <=? c) && (c <=? 57) then Some (c - 48) else None)%N
  else if isspace c then None else unicode_decimal env c.

Fixpoint int_lstrip (s : pystr) : pystr :=
  match s with
  | [] => []
  | c :: r => if int_isspace c then int_lstrip r else s
  end.

(** The digits of the literal after the first one: a digit, or one
    underscore followed by a digit, until only whitespace is left.
    [acc] is the value and [n] the number of digits read so far. *)
Fixpoint int_digits (acc : N) (n : nat) (s : pystr) : option (N * nat) :=
  match s with
  | [] => Some (acc, n)
  | c :: r =>
    match digit_value c with
    | Some d => int_digits (acc * 10 + d) (S n) r
    | None =>
      if (c =? 95)%N then
        match r with
        | c' :: r' =>
          match digit_value c' with
          | Some d => int_digits (acc * 10 + d) (S n) r'
          | None => None
          end
        | [] => None
        end
      else if forallb int_isspace s then Some (acc, n) else None
    end
  end.

(** An unsigned literal: it starts with a digit. *)
Definition int_unsigned (s : pystr) : option (N * nat) :=
  match s with
  | c :: r =>
    match digit_value c with
    | Some d => int_digits d 1 r
    | None => None
    end
  | [] => None
  end.

Definition too_many_digits (n : nat) : bool :=
  ((640 <? n) && (0 <? int_max_str_digits env) && (int_max_str_digits env <? n))%nat.

(** [int(s)]: [None] is [ValueError]. *)
Definition py_int (s : pystr) : option Z :=
  let s := int_lstrip s in
  let '(neg, body) :=
    match s with
    | c :: r => if (c =? 45)%N then (true, r)
                else if (c =? 43)%N then (false, r) else (false, s)
    | [] => (false, s)
    end in
  match int_unsigned body with
  | Some (v, n) =>
    if too_many_digits n then None
    else Some (if neg : bool then - Z.of_N v else Z.of_N v)
  | None => None
  end.
End PyInt.

(** An interpreter that knows the ASCII digits only and has no digit limit. *)
Definition ascii_env : PyEnv :=
  {| unicode_decimal := λ _, None; int_max_str_digits := 0 |}.

(** ** Loops *)

(** [for x in xs: body], threading the variables the body assigns. *)
Fixpoint for_in {A S} (xs : list A) (body : S → A → Exc S) (s : S) : Exc S :=
  match xs with
  | [] => Ok s
  | x :: xs' => s' ← body s x; for_in xs' body s'
  end.

(** [try: body / except (ValueError, IndexError): continue] inside a loop
    whose body yields the row to append, if any. *)
Definition except_continue {A} (body : Exc (option A)) : Exc (option A) :=
  match body with
  | Raise ValueError | Raise IndexError => Ok None
  | _ => body
  end.

(** [a, b = parts] *)
Definition unpack2 {A} (parts : list A) : Exc (A * A) :=
  match parts with
  | [a; b] => Ok (a, b)
  | _ => Raise ValueError
  end.

(** [enumerate(l)] *)
Definition enumerate {A} (l : list A) : list (nat * A) := imap pair l.

(** ** The fetched page, as BeautifulSoup shows it to the scripts *)

(** A header or body cell: the strings inside it, in document order. *)
Definition Cell := list pystr.

(** [cell.get_text(strip=True)]: every string stripped, the empty ones
    dropped, the rest joined. *)
Definition get_text_strip (c : Cell) : pystr :=
  concat (filter (λ s : pystr, s ≠ []) (strip <$> c)).

(** A [tr]: its [class] attribute ([[]] when it has none) and its
    [th]/[td] cells. *)
Record Tr := { tr_class : list pystr; tr_cols : list Cell }.

(** A [table]: the rows of its [thead] and of its [tbody], when it has
    one. *)
Record Table := { thead : option (list Tr); tbody : option (list Tr) }.

(** A [div]: its [id] attribute and the first [table] inside it. *)
Record Div := { div_id : option pystr; div_table : option Table }.

(** What [requests.get] gives: it raises, or it answers with a status code
    and a page, of which the [div]s are kept, in document order. *)
Inductive Fetched :=
| RequestFailed
| Response (status_code : Z) (divs : list Div).

Definition LEAGUES : gmap pystr Z := list_to_map [
  (u "Premier League", 9); (u "La Liga", 12); (u "Serie A", 11);
  (u "Bundesliga", 20); (u "Ligue 1", 13);
  (u "Eredivisie", 23); (u "Primeira Liga", 32); (u "Belgian Pro League", 37);
  (u "Scottish Premiership", 40); (u "Championship", 10);
  (u "Süper Lig", 26); (u "Austrian Bundesliga", 38);
  (u "Swiss Super League", 46); (u "Greek Super League", 27);
  (u "Danish Superliga", 50); (u "Swedish Allsvenskan", 29);
  (u "Norwegian Eliteserien", 28); (u "Ukrainian Premier League", 39);
  (u "Polish Ekstraklasa", 36); (u "Czech First League", 63);
  (u "Croatian First Football League", 64); (u "Serbian SuperLiga", 65);
  (u "Romanian Liga I", 62); (u "Bulgarian First League", 68);
  (u "Hungarian NB I", 66); (u "Slovenian PrvaLiga", 70);
  (u "Slovak Super Liga", 69) ].

(** The [id] test of [soup.find('div', {'id': lambda x: x and
    x.startswith('div_sched_')})]. *)
Definition is_sched_div (d : Div) : bool :=
  match div_id d with
  | Some x => negb (bool_decide (x = [])) && startswith x (u "div_sched_")
  | None => false
  end.

(** The [try] block of [scrape_league], the same in both scripts: the
    schedule table, or [None] where the block returns an empty frame (by a
    [return] or in its [except Exception]). *)
Definition find_schedule_table (resp : Fetched) : option Table :=
  match resp with
  | RequestFailed => None
  | Response status_code divs =>
    if status_code =? 429 then None
    else if negb (status_code =? 200) then None
    else match List.find is_sched_div divs with
         | None => None
         | Some div => div_table div
         end
  end.

(** [col_map = {header: idx for idx, header in enumerate(headers)}]: a
    later column of the same name replaces an earlier one. *)
Definition make_col_map (headers : list pystr) : gmap pystr nat :=
  foldl (λ m p, <[p.2 := p.1]> m) ∅ (enumerate headers).

(** [[idx for idx, h in enumerate(headers) if h == 'xG']] *)
Definition find_xg_indices (headers : list pystr) : list nat :=
  fst <$> filter (λ p : nat * pystr, p.2 = u "xG") (enumerate headers).

(** Truth value of an index that may be [None]: [0] is false too. *)
Definition truthy (idx : option nat) : bool :=
  match idx with
  | Some (S _) => true
  | _ => false
  end.

(** [cols[idx].get_text(strip=True) if idx and len(cols) > idx else ''] *)
Definition xg_text (idx : option nat) (cols : list Cell) : Exc pystr :=
  match idx with
  | Some i =>
    if truthy idx && bool_decide (i < length cols)%nat
    then or_raise IndexError (get_text_strip <$> cols !! i)
    else Ok []
  | None => Ok []
  end.

(** ** Data frames *)

(** [frame.sort_values(key, ascending=False)] on a string column: a stable
    insertion sort. pandas does not promise the order of rows with equal
    keys; the properties below use no more than that the order is
    descending and that it depends on the keys alone. *)
Fixpoint insert_desc {A} (key : A → pystr) (x : A) (l : list A) : list A :=
  match l with
  | [] => [x]
  | y :: l' =>
    if str_leb (key y) (key x) then x :: l else y :: insert_desc key x l'
  end.

Definition sort_values_desc {A} (key : A → pystr) (l : list A) : list A :=
  foldr (insert_desc key) [] l.

(** [a] may stand before [b] in a frame sorted by [key] in descending
    order. *)
Definition desc {A} (key : A → pystr) (a b : A) : Prop :=
  str_leb (key b) (key a) = true.

(** [frame.head(n)] *)
Definition head {A} (n : Z) (l : list A) : list A :=
  if 0 <=? n then take (Z.to_nat n) l
  else take (length l - Z.to_nat (- n)) l.

(** [frame.iloc[0]] *)
Definition iloc0 {A} (l : list A) : Exc A := or_raise IndexError (l !! 0%nat).

(** [s * n] *)
Definition str_repeat (s : pystr) (n : Z) : pystr :=
  concat (replicate (Z.to_nat n) s).

(** [''.join(l)] *)
Definition join (l : list pystr) : pystr := concat l.

Inductive Location := Home | Away.
Inductive Outcome := Win | Loss | Draw.

Global Instance Location_eq_dec : EqDecision Location.
Proof. solve_decision. Defined.
Global Instance Outcome_eq_dec : EqDecision Outcome.
Proof. solve_decision. Defined.

(** The letters the scripts store. *)
Definition location_str (l : Location) : pystr :=
  match l with Home => u "H" | Away => u "A" end.
Definition outcome_str (o : Outcome) : pystr :=
  match o with Win => u "W" | Loss => u "L" | Draw => u "D" end.

(** ['W' if team_score > opp_score else ('L' if team_score < opp_score
    else 'D')] *)
Definition outcome_of (team_score opp_score : Z) : Outcome :=
  if opp_score <? team_score then Win
  else if team_score <? opp_score then Loss else Draw.

(** The columns [get_team_results] adds to a match. *)
Record Derived := {
  opponent : pystr;
  team_score : Z;
  opp_score : Z;
  team_xg : pystr;
  opp_xg : pystr;
  location : Location
}.

(** ** app.py *)

Module App.

Record MatchRecord := {
  league_name : pystr;
  league_id : Z;
  date : pystr;
  home_team : pystr;
  home_xg : pystr;
  away_team : pystr;
  away_xg : pystr;
  home_score : Z;
  away_score : Z;
  score : pystr
}.

Section Extractor.
Context (env : PyEnv).

(** The score cell of one row (lines 135-144): [Ok None] is the
    [continue] of a missing or unseparated score, [Raise ValueError] a
    failed unpacking or [int]. *)
Definition parse_score (score : pystr) : Exc (option (Z * Z)) :=
  if bool_decide (score = [])
     || (negb (contains en_dash score) && negb (contains hyphen score))
  then Ok None
  else
    '(home_score, away_score) ←
      unpack2 (if contains en_dash score then split en_dash score
               else split hyphen score);
    home_score ← or_raise ValueError (py_int env (strip home_score));
    away_score ← or_raise ValueError (py_int env (strip away_score));
    Ok (Some (home_score, away_score)).

(** The [try] block of the row loop (lines 126-157). *)
Definition row_record (league_name : pystr) (league_id : Z)
    (date_idx home_idx score_idx away_idx : nat)
    (home_xg_idx away_xg_idx : option nat) (cols : list Cell)
    : Exc (option MatchRecord) :=
  date ← or_raise IndexError (get_text_strip <$> cols !! date_idx);
  home_team ← or_raise IndexError (get_text_strip <$> cols !! home_idx);
  score ← or_raise IndexError (get_text_strip <$> cols !! score_idx);
  away_team ← or_raise IndexError (get_text_strip <$> cols !! away_idx);
  home_xg ← xg_text home_xg_idx cols;
  away_xg ← xg_text away_xg_idx cols;
  parsed ← parse_score score;
  match parsed with
  | None => Ok None
  | Some (home_score, away_score) =>
    Ok (Some {| league_name := league_name; league_id := league_id;
                date := date; home_team := home_team; home_xg := home_xg;
                away_team := away_team; away_xg := away_xg;
                home_score := home_score; away_score := away_score;
                score := score |})
  end.

(** One turn of [for row in rows] (lines 117-159): the record to
    append, or [None] when the row is skipped. *)
Definition scrape_row (league_name : pystr) (league_id : Z)
    (date_idx home_idx score_idx away_idx : nat)
    (home_xg_idx away_xg_idx : option nat) (row : Tr)
    : Exc (option MatchRecord) :=
  if bool_decide (u "spacer" ∈ tr_class row) then Ok None
  else
    let cols := tr_cols row in
    if bool_decide (length cols ≤
                    Nat.max (Nat.max (Nat.max date_idx home_idx) score_idx)
                            away_idx)%nat
    then Ok None
    else except_continue
           (row_record league_name league_id date_idx home_idx score_idx
                       away_idx home_xg_idx away_xg_idx cols).

(** [scrape_league(league_name)], given what the request returns. The
    messages written to the page and the pause before the request are
    left out. *)
Definition scrape_league (league_name : pystr) (resp : Fetched)
    : Exc (list MatchRecord) :=
  league_id ← or_raise KeyError (LEAGUES !! league_name);
  match find_schedule_table resp with
  | None => Ok []
  | Some table =>
    match thead table with
    | None => Ok []
    | Some trs =>
      header_row ← or_raise IndexError (last trs);
      let headers := get_text_strip <$> tr_cols header_row in
      let col_map := make_col_map headers in
      let date_idx := col_map !! u "Date" in
      let home_idx := col_map !! u "Home" in
      let score_idx := col_map !! u "Score" in
      let away_idx := col_map !! u "Away" in
      let xg_indices := find_xg_indices headers in
      let home_xg_idx :=
        if bool_decide (1 ≤ length xg_indices)%nat
        then xg_indices !! 0%nat else None in
      let away_xg_idx :=
        if bool_decide (2 ≤ length xg_indices)%nat
        then xg_indices !! 1%nat else None in
      match date_idx, home_idx, score_idx, away_idx with
      | Some date_idx, Some home_idx, Some score_idx, Some away_idx =>
        rows ← or_raise AttributeError (tbody table);
        for_in rows
          (λ matches row,
             r ← scrape_row league_name league_id date_idx home_idx
                            score_idx away_idx home_xg_idx away_xg_idx row;
             Ok (match r with
                 | Some m => matches ++ [m]
                 | None => matches
                 end))
          []
      | _, _, _, _ => Ok []
      end
    end
  end.
End Extractor.

(** A row of the frame [get_team_results] returns. *)
Record TeamResult := {
  r_date : pystr;
  r_opponent : pystr;
  r_location : Location;
  r_team_score : Z;
  r_opp_score : Z;
  r_team_xg : pystr;
  r_opp_xg : pystr;
  result : Outcome;
  r_league_name : pystr;
  r_league_id : Z
}.

(** The columns added to [home_games] (lines 166-171) and to
    [away_games] (lines 174-179). *)
Definition home_view (m : MatchRecord) : MatchRecord * Derived :=
  (m, {| opponent := away_team m;
         team_score := home_score m; opp_score := away_score m;
         team_xg := home_xg m; opp_xg := away_xg m;
         location := Home |}).

Definition away_view (m : MatchRecord) : MatchRecord * Derived :=
  (m, {| opponent := home_team m;
         team_score := away_score m; opp_score := home_score m;
         team_xg := away_xg m; opp_xg := home_xg m;
         location := Away |}).

(** The [result] column and the selection of the returned columns
    (lines 185-191). *)
Definition with_result (g : MatchRecord * Derived) : TeamResult :=
  {| r_date := date g.1;
     r_opponent := opponent g.2;
     r_location := location g.2;
     r_team_score := team_score g.2;
     r_opp_score := opp_score g.2;
     r_team_xg := team_xg g.2;
     r_opp_xg := opp_xg g.2;
     result := outcome_of (team_score g.2) (opp_score g.2);
     r_league_name := league_name g.1;
     r_league_id := league_id g.1 |}.

(** [get_team_results(df, team_name)] (lines 163-191). The frame [df] has
    the columns of the records; for a team without a match the result is
    the empty frame, as recent versions of pandas give it. *)
Definition get_team_results (df : list MatchRecord) (team_name : pystr)
    : list TeamResult :=
  let home_games := home_view <$> filter (λ m, home_team m = team_name) df in
  let away_games := away_view <$> filter (λ m, away_team m = team_name) df in
  let all_games := home_games ++ away_games in
  let all_games := sort_values_desc (λ g, date g.1) all_games in
  with_result <$> all_games.

(** An entry of [win_streaks] or of [loss_streaks]. *)
Record Streak := {
  team : pystr;
  s_league_name : pystr;
  s_league_id : Z;
  games : list TeamResult
}.

(** [set(df['home_team'].unique()) | set(df['away_team'].unique())] *)
Definition teams (df : list MatchRecord) : gset pystr :=
  list_to_set (remove_dups (home_team <$> df))
  ∪ list_to_set (remove_dups (away_team <$> df)).

(** One of the two checks of the loop (lines 207-217 and 220-230): the
    list [streaks] after it. *)
Definition check_streak (letter : Outcome) (count : Z) (team : pystr)
    (results : list TeamResult) (streaks : list Streak) : Exc (list Streak) :=
  if bool_decide (count ≤ Z.of_nat (length results)) then
    let last := head count results in
    let results_str := join (outcome_str ∘ result <$> last) in
    if bool_decide (results_str = str_repeat (outcome_str letter) count) then
      first ← iloc0 last;
      Ok (streaks ++ [ {| team := team;
                          s_league_name := r_league_name first;
                          s_league_id := r_league_id first;
                          games := last |} ])
    else Ok streaks
  else Ok streaks.

Section Analyzer.
(** The order in which [for team in teams] visits a set. *)
Context (set_iter : gset pystr → list pystr).

(** [find_game_streaks(df, win_streak_count, loss_streak_count)]
    (lines 193-232). *)
Definition find_game_streaks (df : list MatchRecord)
    (win_streak_count loss_streak_count : Z)
    : Exc (list Streak * list Streak) :=
  for_in (set_iter (teams df))
    (λ '(win_streaks, loss_streaks) team,
       let results := get_team_results df team in
       if bool_decide (Z.of_nat (length results)
                       < Z.max win_streak_count loss_streak_count)
       then Ok (win_streaks, loss_streaks)
       else
         win_streaks ← check_streak Win win_streak_count team results win_streaks;
         loss_streaks ← check_streak Loss loss_streak_count team results loss_streaks;
         Ok (win_streaks, loss_streaks))
    ([], []).
End Analyzer.

End App.

(** ** max.py *)

Module Max.

Record MatchRecord := {
  league : pystr;
  date : pystr;
  home_team : pystr;
  home_xg : pystr;
  away_team : pystr;
  away_xg : pystr;
  home_score : Z;
  away_score : Z;
  score : pystr
}.

Section Extractor.
Context (env : PyEnv).

(** The score cell of one row (lines 133-142). *)
Definition parse_score (score : pystr) : Exc (option (Z * Z)) :=
  if bool_decide (score = [])
     || (negb (contains hyphen score) && negb (contains en_dash score))
  then Ok None
  else
    '(home_score, away_score) ←
      unpack2 (if contains en_dash score then split en_dash score
               else split hyphen score);
    home_score ← or_raise ValueError (py_int env (strip home_score));
    away_score ← or_raise ValueError (py_int env (strip away_score));
    Ok (Some (home_score, away_score)).

(** The [try] block of the row loop (lines 124-154). *)
Definition row_record (league_name : pystr)
    (date_idx home_idx score_idx away_idx : nat)
    (home_xg_idx away_xg_idx : option nat) (cols : list Cell)
    : Exc (option MatchRecord) :=
  date ← or_raise IndexError (get_text_strip <$> cols !! date_idx);
  home_team ← or_raise IndexError (get_text_strip <$> cols !! home_idx);
  score ← or_raise IndexError (get_text_strip <$> cols !! score_idx);
  away_team ← or_raise IndexError (get_text_strip <$> cols !! away_idx);
  home_xg ← xg_text home_xg_idx cols;
  away_xg ← xg_text away_xg_idx cols;
  parsed ← parse_score score;
  match parsed with
  | None => Ok None
  | Some (home_score, away_score) =>
    Ok (Some {| league := league_name;
                date := date; home_team := home_team; home_xg := home_xg;
                away_team := away_team; away_xg := away_xg;
                home_score := home_score; away_score := away_score;
                score := score |})
  end.

(** One turn of [for row in rows] (lines 115-156). *)
Definition scrape_row (league_name : pystr)
    (date_idx home_idx score_idx away_idx : nat)
    (home_xg_idx away_xg_idx : option nat) (row : Tr)
    : Exc (option MatchRecord) :=
  if bool_decide (u "spacer" ∈ tr_class row) then Ok None
  else
    let cols := tr_cols row in
    if bool_decide (length cols ≤
                    Nat.max (Nat.max (Nat.max date_idx home_idx) score_idx)
                            away_idx)%nat
    then Ok None
    else except_continue
           (row_record league_name date_idx home_idx score_idx
                       away_idx home_xg_idx away_xg_idx cols).

(** [scrape_league(league_name)], given what the request returns. *)
Definition scrape_league (league_name : pystr) (resp : Fetched)
    : Exc (list MatchRecord) :=
  league_id ← or_raise KeyError (LEAGUES !! league_name);
  match find_schedule_table resp with
  | None => Ok []
  | Some table =>
    match thead table with
    | None => Ok []
    | Some trs =>
      header_row ← or_raise IndexError (last trs);
      let headers := get_text_strip <$> tr_cols header_row in
      let col_map := make_col_map headers in
      let date_idx := col_map !! u "Date" in
      let home_idx := col_map !! u "Home" in
      let score_idx := col_map !! u "Score" in
      let away_idx := col_map !! u "Away" in
      let xg_indices := find_xg_indices headers in
      let home_xg_idx :=
        if bool_decide (1 ≤ length xg_indices)%nat
        then xg_indices !! 0%nat else None in
      let away_xg_idx :=
        if bool_decide (2 ≤ length xg_indices)%nat
        then xg_indices !! 1%nat else None in
      match date_idx, home_idx, score_idx, away_idx with
      | Some date_idx, Some home_idx, Some score_idx, Some away_idx =>
        rows ← or_raise AttributeError (tbody table);
        for_in rows
          (λ matches row,
             r ← scrape_row league_name date_idx home_idx
                            score_idx away_idx home_xg_idx away_xg_idx row;
             Ok (match r with
                 | Some m => matches ++ [m]
                 | None => matches
                 end))
          []
      | _, _, _, _ => Ok []
      end
    end
  end.
End Extractor.

(** A row of the frame [get_team_results] returns. *)
Record TeamResult := {
  r_date : pystr;
  r_opponent : pystr;
  r_location : Location;
  r_team_score : Z;
  r_opp_score : Z;
  r_team_xg : pystr;
  r_opp_xg : pystr;
  result : Outcome;
  r_league : pystr
}.

Definition home_view (m : MatchRecord) : MatchRecord * Derived :=
  (m, {| opponent := away_team m;
         team_score := home_score m; opp_score := away_score m;
         team_xg := home_xg m; opp_xg := away_xg m;
         location := Home |}).

Definition away_view (m : MatchRecord) : MatchRecord * Derived :=
  (m, {| opponent := home_team m;
         team_score := away_score m; opp_score := home_score m;
         team_xg := away_xg m; opp_xg := home_xg m;
         location := Away |}).

Definition with_result (g : MatchRecord * Derived) : TeamResult :=
  {| r_date := date g.1;
     r_opponent := opponent g.2;
     r_location := location g.2;
     r_team_score := team_score g.2;
     r_opp_score := opp_score g.2;
     r_team_xg := team_xg g.2;
     r_opp_xg := opp_xg g.2;
     result := outcome_of (team_score g.2) (opp_score g.2);
     r_league := league g.1 |}.

(** [get_team_results(df, team_name)] (lines 160-188). *)
Definition get_team_results (df : list MatchRecord) (team_name : pystr)
    : list TeamResult :=
  let home_games := home_view <$> filter (λ m, home_team m = team_name) df in
  let away_games := away_view <$> filter (λ m, away_team m = team_name) df in
  let all_games := home_games ++ away_games in
  let all_games := sort_values_desc (λ g, date g.1) all_games in
  with_result <$> all_games.

(** An entry of [three_wins] or of [three_losses]. *)
Record Streak := {
  team : pystr;
  s_league : pystr;
  games : list TeamResult
}.

Definition teams (df : list MatchRecord) : gset pystr :=
  list_to_set (remove_dups (home_team <$> df))
  ∪ list_to_set (remove_dups (away_team <$> df)).

Section Analyzer.
Context (set_iter : gset pystr → list pystr).

(** [find_3_game_streaks(df)] (lines 190-223). *)
Definition find_3_game_streaks (df : list MatchRecord)
    : Exc (list Streak * list Streak) :=
  for_in (set_iter (teams df))
    (λ '(three_wins, three_losses) team,
       let results := get_team_results df team in
       if bool_decide (length results < 3)%nat
       then Ok (three_wins, three_losses)
       else
         let last_3 := head 3 results in
         let results_str := join (outcome_str ∘ result <$> last_3) in
         if bool_decide (results_str = u "WWW") then
           first ← iloc0 last_3;
           Ok (three_wins ++ [ {| team := team; s_league := r_league first;
                                  games := last_3 |} ],
               three_losses)
         else if bool_decide (results_str = u "LLL") then
           first ← iloc0 last_3;
           Ok (three_wins,
               three_losses ++ [ {| team := team; s_league := r_league first;
                                    games := last_3 |} ])
         else Ok (three_wins, three_losses))
    ([], []).
End Analyzer.

End Max.


(** ** The analyzer in closed form, and the two scripts side by side *)

(** An iteration order of Python sets: each set is listed once, in some
    order. *)
Definition set_order (set_iter : gset pystr → list pystr) : Prop :=
  ∀ X, set_iter X ≡ₚ elements X.

(** All the rows have the result [o]. *)
Definition all_are (o : Outcome) (rows : list App.TeamResult) : bool :=
  forallb (λ r, bool_decide (App.result r = o)) rows.

(** What one team adds to a streak list when both lengths are positive:
    the entry for its [count] most recent results if it has at least [need]
    results and those are all [o], and nothing otherwise. *)
Definition streak_entry (o : Outcome) (count need : nat)
    (df : list App.MatchRecord) (team : pystr) : list App.Streak :=
  let results := App.get_team_results df team in
  match take count results with
  | (first :: _) as last =>
    if bool_decide (need ≤ length results)%nat && all_are o last
    then [ {| App.team := team;
              App.s_league_name := App.r_league_name first;
              App.s_league_id := App.r_league_id first;
              App.games := last |} ]
    else []
  | [] => []
  end.

(** The most recent result of the team of an entry is [o]. *)
Definition leads_with (df : list App.MatchRecord) (o : Outcome)
    (s : App.Streak) : Prop :=
  ∃ first, App.get_team_results df (App.team s) !! 0%nat = Some first ∧
           App.result first = o.

(** A frame, a result row and a streak entry of [app.py] as [max.py] has
    them: the league name under [league], and no league identifier. *)
Definition to_max (m : App.MatchRecord) : Max.MatchRecord :=
  {| Max.league := App.league_name m;
     Max.date := App.date m;
     Max.home_team := App.home_team m; Max.home_xg := App.home_xg m;
     Max.away_team := App.away_team m; Max.away_xg := App.away_xg m;
     Max.home_score := App.home_score m; Max.away_score := App.away_score m;
     Max.score := App.score m |}.

Definition row_to_max (r : App.TeamResult) : Max.TeamResult :=
  {| Max.r_date := App.r_date r;
     Max.r_opponent := App.r_opponent r;
     Max.r_location := App.r_location r;
     Max.r_team_score := App.r_team_score r;
     Max.r_opp_score := App.r_opp_score r;
     Max.r_team_xg := App.r_team_xg r;
     Max.r_opp_xg := App.r_opp_xg r;
     Max.result := App.result r;
     Max.r_league := App.r_league_name r |}.

Definition streak_to_max (s : App.Streak) : Max.Streak :=
  {| Max.team := App.team s;
     Max.s_league := App.s_league_name s;
     Max.games := row_to_max <$> App.games s |}.

(** ** Sample pages *)

(** A cell holding one string, and a row of such cells. *)
Definition cell (s : string) : Cell := [u s].
Definition tr (texts : list string) : Tr :=
  {| tr_class := []; tr_cols := cell <$> texts |}.

(** A page answered with status 200 whose schedule [div] holds one table. *)
Definition schedule_page (thead tbody : option (list Tr)) : Fetched :=
  Response 200
    [ {| div_id := Some (u "div_sched_2024-2025_12_1");
         div_table := Some {| thead := thead; tbody := tbody |} |} ].

Definition plain_header : Tr := tr ["Date"; "Home"; "Score"; "Away"]%string.

(** One fixture whose score mixes the en-dash with a minus sign. *)
Definition signed_score_page : Fetched :=
  schedule_page (Some [plain_header])
    (Some [tr ["2024-08-17"; "Girona"; "1–-2"; "Betis"]%string]).

(** Two fixtures, one played and one postponed. *)
Definition played_page : Fetched :=
  schedule_page (Some [plain_header])
    (Some [tr ["2024-08-17"; "Girona"; "2–1"; "Betis"]%string;
           tr ["2024-08-18"; "Getafe"; "postponed"; "Celta"]%string]).

(** A table with its header and no [tbody], and one whose [thead] has no
    row. *)
Definition no_tbody_page : Fetched := schedule_page (Some [plain_header]) None.
Definition empty_thead_page : Fetched := schedule_page (Some []) (Some []).

(** The first [xG] column is the first column of the table. *)
Definition xg_first_page : Fetched :=
  schedule_page (Some [tr ["xG"; "Date"; "Home"; "Score"; "xG"; "Away"]%string])
    (Some [tr ["1.5"; "2024-08-17"; "Girona"; "2-1"; "0.3"; "Betis"]%string]).

(** A header without the [Score] column. *)
Definition no_score_page : Fetched :=
  schedule_page (Some [tr ["Date"; "Home"; "Away"]%string])
    (Some [tr ["2024-08-17"; "Girona"; "Betis"]%string]).

(** ** Sample frames *)

Definition fixture (date home : string) (home_score away_score : Z)
    (away : string) : App.MatchRecord :=
  {| App.league_name := u "La Liga"; App.league_id := 12;
     App.date := u date;
     App.home_team := u home; App.home_xg := u "";
     App.away_team := u away; App.away_xg := u "";
     App.home_score := home_score; App.away_score := away_score;
     App.score := u "" |}.

(** Girona's results, most recent first: win, win, win, loss, win. *)
Definition streak_frame : list App.MatchRecord :=
  [ fixture "2024-09-01" "Girona" 1 0 "Betis";
    fixture "2024-09-29" "Celta" 0 2 "Girona";
    fixture "2024-09-15" "Getafe" 1 3 "Girona";
    fixture "2024-09-22" "Girona" 2 1 "Osasuna";
    fixture "2024-09-08" "Girona" 0 1 "Alaves" ].



(** ** More of the extractor in closed form *)

(** What one body row adds to the records: the record of [scrape_row], or
    nothing. *)
Definition emitted (env : PyEnv) (league_name : pystr) (league_id : Z)
    (date_idx home_idx score_idx away_idx : nat)
    (home_xg_idx away_xg_idx : option nat) (row : Tr)
    : option App.MatchRecord :=
  match App.scrape_row env league_name league_id date_idx home_idx score_idx
                       away_idx home_xg_idx away_xg_idx row with
  | Ok r => r
  | Raise _ => None
  end.

(** The text of cell [i] of a row. *)
Definition cell_text (row : Tr) (i : nat) : option pystr :=
  get_text_strip <$> tr_cols row !! i.

(** The header names of a header row. *)
Definition header_names (header_row : Tr) : list pystr :=
  get_text_strip <$> tr_cols header_row.

(** [i] is the last column named [h]. *)
Definition last_column (headers : list pystr) (h : pystr) (i : nat) : Prop :=
  headers !! i = Some h ∧ ∀ j, (i < j)%nat → headers !! j ≠ Some h.

(** The two [xG] indices [scrape_league] computes from the header. *)
Definition home_xg_index (headers : list pystr) : option nat :=
  let xg_indices := find_xg_indices headers in
  if bool_decide (1 ≤ length xg_indices)%nat then xg_indices !! 0%nat else None.
Definition away_xg_index (headers : list pystr) : option nat :=
  let xg_indices := find_xg_indices headers in
  if bool_decide (2 ≤ length xg_indices)%nat then xg_indices !! 1%nat else None.

(** The text of cell [i] of a row, or [''] when the row has no such cell. *)
Definition cell_text_or_empty (row : Tr) (i : nat) : pystr :=
  default [] (cell_text row i).

(** A page with a schedule table whose header row is [header_row] and whose
    body rows are [rows]. *)
Definition table_page (header_row : Tr) (rows : list Tr) : Fetched :=
  schedule_page (Some [header_row]) (Some rows).

(** The characters of a decimal numeral with the digits [ds], the most
    significant first, and its value. *)
Definition decimal (ds : list N) : pystr := (λ d, 48 + d)%N <$> ds.
Definition decimal_value (ds : list N) : N :=
  foldl (λ acc d, acc * 10 + d)%N 0%N ds.

(** The separator at which [parse_score] splits a score text. *)
Definition separator_of (score : pystr) : N :=
  if contains en_dash score then en_dash else hyphen.

(** The number of occurrences of [c] in [s]. *)
Definition occurrences (c : N) (s : list N) : nat :=
  length (filter (λ x, x = c) s).

(** A page with an [xG] column on each side of the score. *)
Definition xg_header : Tr :=
  tr ["Wk"; "Date"; "Home"; "xG"; "Score"; "xG"; "Away"]%string.
Definition xg_row : Tr :=
  tr ["1"; "2024-08-17"; "Girona"; "1.5"; "2–1"; "0.3"; "Betis"]%string.
Definition xg_page : Fetched := table_page xg_header [xg_row].

(** ** More of the analyzer *)

(** The result of a match for the other side. *)
Definition opposite (o : Outcome) : Outcome :=
  match o with Win => Loss | Loss => Win | Draw => Draw end.

(** The team plays in match [m]. *)
Definition plays_in (team : pystr) (m : App.MatchRecord) : Prop :=
  App.home_team m = team ∨ App.away_team m = team.
(** * Properties *)

(** ** Strings and [int] *)

Lemma lstrip_suffix s : lstrip s `suffix_of` s.
Proof.
  induction s as [|c r IH]; simpl; [done|].
  destruct (isspace c); [by apply suffix_cons_r | done].
Qed.

Lemma elem_of_strip c s : c ∈ strip s → c ∈ s.
Proof.
  unfold strip, rstrip. intros Hc.
  rewrite elem_of_reverse in Hc.
  apply elem_of_suffix with (l2 := reverse (lstrip s)) in Hc;
    [|apply lstrip_suffix].
  rewrite elem_of_reverse in Hc.
  eapply elem_of_suffix; [done | apply lstrip_suffix].
Qed.

Lemma split_nonempty sep s : split sep s ≠ [].
Proof.
  destruct s as [|c r]; simpl; [done|].
  destruct (c =? sep)%N; [done|]. by destruct (split sep r).
Qed.

(** No part of a split holds the separator, and every character of a part
    is one of the string. *)
Lemma elem_of_split sep s p c : p ∈ split sep s → c ∈ p → c ≠ sep ∧ c ∈ s.
Proof.
  revert p. induction s as [|x r IH]; simpl; intros p Hp Hc.
  - apply list_elem_of_singleton in Hp as ->. by apply elem_of_nil in Hc.
  - destruct (N.eqb_spec x sep) as [->|Hne].
    + apply elem_of_cons in Hp as [->|Hp]; [by apply elem_of_nil in Hc|].
      destruct (IH _ Hp Hc). split; [done | by right].
    + destruct (split sep r) as [|q qs] eqn:Hs; [by destruct (split_nonempty sep r)|].
      apply elem_of_cons in Hp as [->|Hp].
      * apply elem_of_cons in Hc as [->|Hc]; [split; [done | by left]|].
        destruct (IH q) as [? ?]; [by left | done |]. split; [done | by right].
      * destruct (IH p) as [? ?]; [by right | done |]. split; [done | by right].
Qed.

Section PyIntFacts.
Context (env : PyEnv).

Lemma int_lstrip_suffix s : int_lstrip s `suffix_of` s.
Proof.
  induction s as [|c r IH]; simpl; [done|].
  destruct (int_isspace c); [by apply suffix_cons_r | done].
Qed.

(** [int] gives a negative number only for a text with a minus sign. *)
Lemma py_int_nonneg s z : py_int env s = Some z → hyphen ∉ s → 0 ≤ z.
Proof.
  unfold py_int. intros Hz Hs.
  pose proof (int_lstrip_suffix s) as Hsuf.
  destruct (int_lstrip s) as [|c r] eqn:Hl.
  - destruct (int_unsigned env []) as [[v n]|]; [|done].
    destruct (too_many_digits env n); simplify_eq. lia.
  - destruct (N.eqb_spec c 45) as [->|Hne].
    + exfalso. apply Hs. eapply elem_of_suffix; [|done]. by left.
    + destruct (c =? 43)%N;
        (destruct (int_unsigned env _) as [[v n]|]; [|done]);
        destruct (too_many_digits env n); simplify_eq; lia.
Qed.
End PyIntFacts.

(** ** The exception monad and the loops *)

Lemma bind_Ok {A B} (m : Exc A) (k : A → Exc B) b :
  m ≫= k = Ok b → ∃ a, m = Ok a ∧ k a = Ok b.
Proof. destruct m as [a|e]; [by exists a | done]. Qed.

Lemma or_raise_Ok {A} e (o : option A) a : or_raise e o = Ok a → o = Some a.
Proof. destruct o; simpl; congruence. Qed.

Lemma unpack2_Ok {A} (parts : list A) a b :
  unpack2 parts = Ok (a, b) → parts = [a; b].
Proof. destruct parts as [|x [|y [|z r]]]; simpl; congruence. Qed.

Lemma except_continue_Some {A} (body : Exc (option A)) a :
  except_continue body = Ok (Some a) → body = Ok (Some a).
Proof. destruct body as [r|[]]; simpl; congruence. Qed.

Ltac inv_bind H :=
  let a := fresh "v" in
  let Ha := fresh "Hv" in
  apply bind_Ok in H as (a & Ha & H).

(** A loop that appends at most one element per turn returns the elements
    its turns produced. *)
Lemma for_in_collect {A B} (f : A → Exc (option B)) (rows : list A) acc res :
  for_in rows
    (λ ms row, r ← f row;
               Ok (match r with Some m => ms ++ [m] | None => ms end)) acc
  = Ok res →
  ∃ new, res = acc ++ new ∧
         Forall (λ m, ∃ row, row ∈ rows ∧ f row = Ok (Some m)) new.
Proof.
  revert acc. induction rows as [|row rows IH]; simpl; intros acc H.
  - exists []. split; [by simplify_eq; rewrite app_nil_r | constructor].
  - inv_bind H. inv_bind Hv. simplify_eq.
    apply IH in H as (new & -> & Hnew).
    assert (Forall (λ m, ∃ row0, row0 ∈ row :: rows ∧ f row0 = Ok (Some m)) new)
      as Hnew'.
    { eapply Forall_impl; [done|]. intros m (r & ? & ?). exists r.
      split; [by right | done]. }
    destruct v0 as [m|].
    + exists (m :: new). split; [by rewrite <- app_assoc|].
      constructor; [|done]. exists row. split; [by left | done].
    + by exists new.
Qed.

(** A loop with an invariant. *)
Lemma for_in_invariant {A S} (P : S → Prop) (xs : list A) body (s res : S) :
  P s →
  (∀ s x s', x ∈ xs → P s → body s x = Ok s' → P s') →
  for_in xs body s = Ok res → P res.
Proof.
  revert s. induction xs as [|x xs IH]; simpl; intros s Hs Hstep H.
  - by simplify_eq.
  - inv_bind H. eapply (IH v); [|intros; eapply Hstep; eauto; by right|done].
    eapply Hstep; [by left | done..].
Qed.

(** ** The extractor *)

Section ExtractorFacts.
Context (env : PyEnv).

Lemma max_parse_score score : Max.parse_score env score = App.parse_score env score.
Proof.
  unfold Max.parse_score, App.parse_score.
  by rewrite (andb_comm (negb (contains hyphen score))).
Qed.

(** Scores are negative only for a score text with both separators. *)
Lemma parse_score_nonneg score hs as_ :
  App.parse_score env score = Ok (Some (hs, as_)) →
  ¬ (en_dash ∈ score ∧ hyphen ∈ score) →
  0 ≤ hs ∧ 0 ≤ as_.
Proof.
  unfold App.parse_score. intros H Hsep.
  destruct (bool_decide (score = []) || _); [done|].
  inv_bind H. destruct v as [a b]. apply unpack2_Ok in Hv.
  inv_bind H. apply or_raise_Ok in Hv0.
  inv_bind H. apply or_raise_Ok in Hv1. simplify_eq.
  assert (∀ p, p ∈ [a; b] → hyphen ∉ strip p) as Hparts.
  { intros p Hp Hh. apply elem_of_strip in Hh. rewrite <- Hv in Hp.
    unfold contains in Hp. case_bool_decide.
    - destruct (elem_of_split _ _ _ _ Hp Hh). tauto.
    - by destruct (elem_of_split _ _ _ _ Hp Hh). }
  split; eapply py_int_nonneg; try done; apply Hparts; set_solver.
Qed.

Lemma app_row_record_Some name id d h s a hx ax cols m :
  App.row_record env name id d h s a hx ax cols = Ok (Some m) →
  App.league_name m = name ∧ App.league_id m = id ∧
  get_text_strip <$> cols !! s = Some (App.score m) ∧
  xg_text hx cols = Ok (App.home_xg m) ∧
  xg_text ax cols = Ok (App.away_xg m) ∧
  App.parse_score env (App.score m)
  = Ok (Some (App.home_score m, App.away_score m)).
Proof.
  unfold App.row_record. intros H.
  do 7 inv_bind H. apply or_raise_Ok in Hv1.
  destruct v5 as [[hs as_]|]; simplify_eq. by simpl.
Qed.

Lemma app_scrape_row_Some name id d h s a hx ax row m :
  App.scrape_row env name id d h s a hx ax row = Ok (Some m) →
  App.row_record env name id d h s a hx ax (tr_cols row) = Ok (Some m).
Proof.
  unfold App.scrape_row. intros H.
  repeat case_bool_decide; try done. by apply except_continue_Some.
Qed.

Lemma max_row_record_Some name d h s a hx ax cols m :
  Max.row_record env name d h s a hx ax cols = Ok (Some m) →
  Max.league m = name ∧
  get_text_strip <$> cols !! s = Some (Max.score m) ∧
  App.parse_score env (Max.score m)
  = Ok (Some (Max.home_score m, Max.away_score m)).
Proof.
  unfold Max.row_record. intros H.
  do 7 inv_bind H. apply or_raise_Ok in Hv1. rewrite max_parse_score in Hv5.
  destruct v5 as [[hs as_]|]; simplify_eq. by simpl.
Qed.

Lemma max_scrape_row_Some name d h s a hx ax row m :
  Max.scrape_row env name d h s a hx ax row = Ok (Some m) →
  Max.row_record env name d h s a hx ax (tr_cols row) = Ok (Some m).
Proof.
  unfold Max.scrape_row. intros H.
  repeat case_bool_decide; try done. by apply except_continue_Some.
Qed.

(** Every record of [app.py]'s extractor comes from a body row of the
    schedule table whose [try] block ran to its end. *)
Lemma app_scrape_league_records name resp records :
  App.scrape_league env name resp = Ok records →
  ∃ id, LEAGUES !! name = Some id ∧
  Forall (λ m, ∃ d h s a hx ax cols,
            App.row_record env name id d h s a hx ax cols = Ok (Some m))
         records.
Proof.
  unfold App.scrape_league. intros H.
  inv_bind H. apply or_raise_Ok in Hv. exists v. split; [done|].
  destruct (find_schedule_table resp) as [table|]; [|by simplify_eq].
  destruct (thead table) as [trs|]; [|by simplify_eq].
  inv_bind H.
  repeat (match type of H with
          | match ?o with Some _ => _ | None => _ end = _ =>
            destruct o; [|by simplify_eq]
          end).
  inv_bind H. apply for_in_collect in H as (new & -> & Hnew). simpl.
  eapply Forall_impl; [done|]. intros m (row & _ & Hrow).
  apply app_scrape_row_Some in Hrow. eauto 10.
Qed.

Lemma max_scrape_league_records name resp records :
  Max.scrape_league env name resp = Ok records →
  Forall (λ m, ∃ d h s a hx ax cols,
            Max.row_record env name d h s a hx ax cols = Ok (Some m))
         records.
Proof.
  unfold Max.scrape_league. intros H.
  inv_bind H.
  destruct (find_schedule_table resp) as [table|]; [|by simplify_eq].
  destruct (thead table) as [trs|]; [|by simplify_eq].
  inv_bind H.
  repeat (match type of H with
          | match ?o with Some _ => _ | None => _ end = _ =>
            destruct o; [|by simplify_eq]
          end).
  inv_bind H. apply for_in_collect in H as (new & -> & Hnew). simpl.
  eapply Forall_impl; [done|]. intros m (row & _ & Hrow).
  apply max_scrape_row_Some in Hrow. eauto 10.
Qed.
End ExtractorFacts.

(** C1, as the code has it: every record of either extractor carries the
    league name it was called with (and, in [app.py], the identifier
    [LEAGUES] gives for it), and its two scores are the integers the
    completed parse of its own score text gave, so no record holds a
    partly parsed score. The scores are non-negative unless the score text
    holds both an en-dash and an ASCII hyphen. *)
Theorem C1_records_carry_league_and_parsed_scores
    env name id resp :
  LEAGUES !! name = Some id →
  (∀ records, App.scrape_league env name resp = Ok records →
     Forall (λ r, App.league_name r = name ∧ App.league_id r = id ∧
                  App.parse_score env (App.score r)
                  = Ok (Some (App.home_score r, App.away_score r)) ∧
                  (¬ (en_dash ∈ App.score r ∧ hyphen ∈ App.score r) →
                   0 ≤ App.home_score r ∧ 0 ≤ App.away_score r))
            records) ∧
  (∀ records, Max.scrape_league env name resp = Ok records →
     Forall (λ r, Max.league r = name ∧
                  Max.parse_score env (Max.score r)
                  = Ok (Some (Max.home_score r, Max.away_score r)) ∧
                  (¬ (en_dash ∈ Max.score r ∧ hyphen ∈ Max.score r) →
                   0 ≤ Max.home_score r ∧ 0 ≤ Max.away_score r))
            records).
Proof.
  intros Hid. split; intros records H.
  - apply app_scrape_league_records in H as (id' & Hid' & H).
    assert (id' = id) as -> by congruence.
    eapply Forall_impl; [done|]. intros r (d & h & s & a & hx & ax & cols & Hr).
    apply app_row_record_Some in Hr as (? & ? & _ & _ & _ & Hp).
    do 3 (split; [done|]). intros Hsep. by eapply parse_score_nonneg.
  - apply max_scrape_league_records in H.
    eapply Forall_impl; [done|]. intros r (d & h & s & a & hx & ax & cols & Hr).
    apply max_row_record_Some in Hr as (? & _ & Hp).
    rewrite max_parse_score.
    do 2 (split; [done|]). intros Hsep. by eapply parse_score_nonneg.
Qed.

Lemma C1_witness :
  LEAGUES !! u "La Liga" = Some 12 ∧
  ∃ records,
    App.scrape_league ascii_env (u "La Liga") played_page = Ok records ∧
    length records = 1%nat ∧
    Forall (λ r, App.league_name r = u "La Liga" ∧ App.league_id r = 12 ∧
                 App.parse_score ascii_env (App.score r)
                 = Ok (Some (App.home_score r, App.away_score r)) ∧
                 (¬ (en_dash ∈ App.score r ∧ hyphen ∈ App.score r) →
                  0 ≤ App.home_score r ∧ 0 ≤ App.away_score r))
           records.
Proof.
  split; [reflexivity|].
  eexists. split; [vm_compute; reflexivity|]. split; [reflexivity|].
  apply (proj1 (C1_records_carry_league_and_parsed_scores
                  ascii_env (u "La Liga") 12 played_page eq_refl)).
  vm_compute; reflexivity.
Defined.

(** C1 as stated fails: the score text "1–-2" is split at the en-dash and
    [int] reads "-2", so the record is emitted with a negative away score. *)
Lemma C1_negative_score_emitted :
  ∃ r, App.scrape_league ascii_env (u "La Liga") signed_score_page = Ok [r] ∧
       App.home_score r = 1 ∧ App.away_score r = -2.
Proof. eexists. split; [vm_compute; reflexivity|]. by split. Qed.

(** The failures the extractor does recover from: a failed request, a
    status other than 200, no schedule [div], no table in it, no [thead]. *)
Lemma app_handled_failures env name id resp :
  LEAGUES !! name = Some id →
  find_schedule_table resp = None ∨
  (∃ table, find_schedule_table resp = Some table ∧ thead table = None) →
  App.scrape_league env name resp = Ok [].
Proof.
  intros Hid Hfail. unfold App.scrape_league. rewrite Hid. simpl.
  destruct Hfail as [-> | (table & -> & ->)]; done.
Qed.

(** C2 at the failing inputs: a schedule table with its header row and no
    [tbody] makes both extractors raise [AttributeError], and one whose
    [thead] holds no row makes them raise [IndexError]; neither is caught
    inside [scrape_league]. *)
Theorem C2_structural_failures_raise env :
  App.scrape_league env (u "La Liga") no_tbody_page = Raise AttributeError ∧
  App.scrape_league env (u "La Liga") empty_thead_page = Raise IndexError ∧
  Max.scrape_league env (u "La Liga") no_tbody_page = Raise AttributeError ∧
  Max.scrape_league env (u "La Liga") empty_thead_page = Raise IndexError.
Proof. repeat split; vm_compute; reflexivity. Qed.

(** C6 at the failing input: with [xG] as the first column of the header,
    the record's home expected-goals value is the empty string although the
    row's first cell reads "1.5"; the second [xG] column is read. *)
Theorem C6_first_column_xg_is_ignored env :
  ∃ r, App.scrape_league env (u "La Liga") xg_first_page = Ok [r] ∧
       App.home_xg r = u "" ∧ App.away_xg r = u "0.3".
Proof. eexists. split; [vm_compute; reflexivity|]. by split. Qed.

(** ** Rows that are skipped *)

Lemma bind_Raise {A B} (m : Exc A) (k : A → Exc B) e :
  m ≫= k = Raise e → m = Raise e ∨ ∃ a, m = Ok a ∧ k a = Raise e.
Proof. intros H. destruct m as [a|e']; [right; by exists a | left; by injection H as ->]. Qed.

Lemma or_raise_Raise {A} e e' (o : option A) : or_raise e o = Raise e' → e' = e.
Proof. destruct o; simpl; congruence. Qed.

Lemma xg_text_Raise idx cols e : xg_text idx cols = Raise e → e = IndexError.
Proof.
  unfold xg_text. destruct idx as [i|]; [|done].
  destruct (truthy (Some i) && _); [|done]. apply or_raise_Raise.
Qed.

Section SkippedRows.
Context (env : PyEnv).

Lemma parse_score_Raise score e :
  App.parse_score env score = Raise e → e = ValueError.
Proof.
  unfold App.parse_score. destruct (bool_decide (score = []) || _); [done|].
  intros H.
  apply bind_Raise in H as [H|([a b] & _ & H)].
  { destruct (if contains en_dash score then _ else _) as [|x [|y [|z r]]];
      simpl in H; congruence. }
  apply bind_Raise in H as [H|(hs & _ & H)]; [by apply or_raise_Raise in H|].
  apply bind_Raise in H as [H|(as_ & _ & H)]; [by apply or_raise_Raise in H|].
  done.
Qed.

Lemma app_row_record_Raise name id d h s a hx ax cols e :
  App.row_record env name id d h s a hx ax cols = Raise e →
  e = ValueError ∨ e = IndexError.
Proof.
  unfold App.row_record. intros H.
  do 4 (apply bind_Raise in H as [H|(? & _ & H)];
        [right; by apply or_raise_Raise in H|]).
  do 2 (apply bind_Raise in H as [H|(? & _ & H)];
        [right; by apply xg_text_Raise in H|]).
  apply bind_Raise in H as [H|(p & _ & H)];
    [left; by apply parse_score_Raise in H|].
  by destruct p as [[??]|].
Qed.

(** A turn of the row loop never raises. *)
Lemma app_scrape_row_total name id d h s a hx ax row :
  ∃ r, App.scrape_row env name id d h s a hx ax row = Ok r.
Proof.
  unfold App.scrape_row. repeat case_bool_decide; eauto.
  destruct (App.row_record env name id d h s a hx ax (tr_cols row))
    as [r|e] eqn:Hr; [by exists r|].
  apply app_row_record_Raise in Hr as [-> | ->]; by exists None.
Qed.


(** A row whose score text yields no scores is skipped. *)
Lemma app_scrape_row_skipped name id d h s a hx ax row score :
  get_text_strip <$> tr_cols row !! s = Some score →
  (∀ v, App.parse_score env score ≠ Ok (Some v)) →
  App.scrape_row env name id d h s a hx ax row = Ok None.
Proof.
  intros Hscore Hparse.
  destruct (app_scrape_row_total name id d h s a hx ax row) as [[m|] Hr]; [|done].
  apply app_scrape_row_Some, app_row_record_Some in Hr
    as (_ & _ & Hs & _ & _ & Hp).
  rewrite Hscore in Hs. simplify_eq. by destruct (Hparse _ Hp).
Qed.
End SkippedRows.


(** ** The column map *)

Lemma foldl_insert_lookup_None (ps : list (nat * pystr)) (m : gmap pystr nat) h :
  m !! h = None → h ∉ ps.*2 →
  foldl (λ m p, <[p.2 := p.1]> m) m ps !! h = None.
Proof.
  revert m. induction ps as [|[i x] ps IH]; simpl; intros m Hm Hh; [done|].
  apply not_elem_of_cons in Hh as [Hne Hh].
  apply IH; [|done]. by rewrite lookup_insert_ne.
Qed.

Lemma enumerate_snd {A} (l : list A) : (enumerate l).*2 = l.
Proof.
  unfold enumerate. rewrite fmap_imap.
  rewrite (imap_ext _ (λ _ x, x)); [|done].
  induction l as [|x l IH] using rev_ind; [done|].
  by rewrite imap_app, IH.
Qed.

(** A name that no header cell carries has no index. *)
Lemma make_col_map_None headers h :
  h ∉ headers → make_col_map headers !! h = None.
Proof.
  intros Hh. unfold make_col_map.
  apply foldl_insert_lookup_None; [done | by rewrite enumerate_snd].
Qed.

(** C8: when the schedule table has a header row and that row lacks one of
    [Date], [Home], [Score], [Away], the extractor returns the empty frame:
    no record, and no exception. *)
Theorem C8_missing_required_column_gives_empty
    env name id resp table trs header_row :
  LEAGUES !! name = Some id →
  find_schedule_table resp = Some table →
  thead table = Some trs →
  last trs = Some header_row →
  (let headers := get_text_strip <$> tr_cols header_row in
   u "Date" ∉ headers ∨ u "Home" ∉ headers ∨
   u "Score" ∉ headers ∨ u "Away" ∉ headers) →
  App.scrape_league env name resp = Ok [].
Proof.
  intros Hid Htable Hthead Hlast Hmissing.
  unfold App.scrape_league. rewrite Hid, Htable, Hthead, Hlast. simpl.
  destruct Hmissing as [H|[H|[H|H]]];
    rewrite (make_col_map_None _ _ H);
    by repeat (match goal with
               | |- context [match ?o with Some _ => _ | None => _ end] =>
                 destruct o
               end).
Qed.

Lemma C8_witness :
  App.scrape_league ascii_env (u "La Liga") no_score_page = Ok [].
Proof.
  eapply (C8_missing_required_column_gives_empty ascii_env (u "La Liga") 12);
    [reflexivity | reflexivity | reflexivity | reflexivity |].
  right. right. left. apply (bool_decide_unpack _). vm_compute. exact I.
Defined.

(** ** String order and [sort_values] *)

Lemma str_cmp_antisym a b : str_cmp b a = CompOpp (str_cmp a b).
Proof.
  revert b. induction a as [|x a IH]; intros [|y b]; simpl; try done.
  rewrite (N.compare_antisym x y).
  destruct (x ?= y)%N; simpl; [apply IH | done..].
Qed.

Lemma str_cmp_refl a : str_cmp a a = Eq.
Proof. induction a as [|x a IH]; simpl; [done|]. by rewrite N.compare_refl. Qed.

Lemma str_leb_total a b : str_leb a b = false → str_leb b a = true.
Proof.
  unfold str_leb. rewrite (str_cmp_antisym a b).
  by destruct (str_cmp a b).
Qed.

Lemma str_leb_refl a : str_leb a a = true.
Proof. unfold str_leb. by rewrite str_cmp_refl. Qed.

Lemma str_leb_trans a b c :
  str_leb a b = true → str_leb b c = true → str_leb a c = true.
Proof.
  unfold str_leb. revert b c.
  induction a as [|x a IH]; intros [|y b] [|z c]; simpl; try done.
  destruct (N.compare_spec x y) as [->|Hxy|Hxy]; [| |done].
  - destruct (y ?= z)%N; [apply IH | done..].
  - destruct (N.compare_spec y z) as [->|Hyz|Hyz]; [| |done]; intros _ _.
    + by rewrite (proj2 (N.compare_lt_iff x z) Hxy).
    + by rewrite (proj2 (N.compare_lt_iff x z) (N.lt_trans _ _ _ Hxy Hyz)).
Qed.

Section SortValues.
Context {A : Type} (key : A → pystr).

Lemma insert_desc_Permutation x l : insert_desc key x l ≡ₚ x :: l.
Proof.
  induction l as [|y l IH]; simpl; [done|].
  destruct (str_leb (key y) (key x)); [done|].
  by rewrite IH, Permutation_swap.
Qed.

Lemma sort_values_desc_Permutation l : sort_values_desc key l ≡ₚ l.
Proof.
  induction l as [|x l IH]; simpl; [done|].
  by rewrite insert_desc_Permutation, IH.
Qed.

Lemma insert_desc_sorted x l :
  StronglySorted (desc key) l → StronglySorted (desc key) (insert_desc key x l).
Proof.
  induction l as [|y l IH]; simpl; intros Hl.
  - by repeat constructor.
  - destruct (str_leb (key y) (key x)) eqn:Hyx.
    + apply StronglySorted_cons in Hl as Hl'. destruct Hl' as [Hy _].
      constructor; [done|]. constructor; [done|].
      eapply Forall_impl; [done|]. intros z Hz. unfold desc in *.
      by eapply str_leb_trans.
    + apply StronglySorted_cons in Hl as [Hy Hl].
      constructor; [by apply IH|].
      rewrite insert_desc_Permutation. constructor; [|done].
      by apply str_leb_total.
Qed.

Lemma sort_values_desc_sorted l : StronglySorted (desc key) (sort_values_desc key l).
Proof.
  induction l as [|x l IH]; simpl; [constructor|]. by apply insert_desc_sorted.
Qed.

Lemma sort_values_desc_length l : length (sort_values_desc key l) = length l.
Proof. by rewrite sort_values_desc_Permutation. Qed.
End SortValues.

(** Sorting commutes with a map that keeps the keys. *)
Lemma sort_values_desc_fmap {A B} (key : A → pystr) (key' : B → pystr)
    (f : A → B) l :
  (∀ x, key' (f x) = key x) →
  sort_values_desc key' (f <$> l) = f <$> sort_values_desc key l.
Proof.
  intros Hkey. unfold sort_values_desc.
  induction l as [|x l IH]; [done|].
  rewrite fmap_cons. simpl foldr. rewrite IH.
  generalize (foldr (insert_desc key) [] l). intros s.
  induction s as [|y s IHs]; [done|].
  rewrite !fmap_cons. simpl insert_desc.
  rewrite !Hkey. destruct (str_leb (key y) (key x)); [done|].
  by rewrite IHs.
Qed.

Lemma StronglySorted_lookup {A} (R : relation A) l i j a b :
  StronglySorted R l → (i < j)%nat → l !! i = Some a → l !! j = Some b → R a b.
Proof.
  intros Hl. revert i j. induction Hl as [|x l Hl IH Hx]; intros i j Hij Hi Hj.
  - done.
  - destruct j as [|j]; [lia|]. destruct i as [|i]; simpl in *.
    + simplify_eq. eapply Forall_forall; [done|].
      by eapply list_elem_of_lookup_2.
    + eapply (IH i j); [lia | done..].
Qed.

(** ** [get_team_results] *)


(** C9: in the frame [get_team_results] returns, a row never has a date
    string smaller than that of a row after it. *)
Theorem C9_team_results_sorted_descending df team_name i j a b :
  (i < j)%nat →
  App.get_team_results df team_name !! i = Some a →
  App.get_team_results df team_name !! j = Some b →
  str_leb (App.r_date b) (App.r_date a) = true.
Proof.
  unfold App.get_team_results. intros Hij Ha Hb.
  rewrite list_lookup_fmap in Ha, Hb.
  destruct (_ !! i) as [ga|] eqn:Hga; [|done].
  destruct (_ !! j) as [gb|] eqn:Hgb; [|done].
  simpl in Ha, Hb. simplify_eq. simpl.
  eapply (StronglySorted_lookup
            (desc (λ g : App.MatchRecord * Derived, App.date g.1)) _ i j ga gb);
    [apply sort_values_desc_sorted | done..].
Qed.

Lemma C9_witness :
  ∃ a b, App.get_team_results streak_frame (u "Girona") !! 0%nat = Some a ∧
         App.get_team_results streak_frame (u "Girona") !! 1%nat = Some b ∧
         App.r_date a = u "2024-09-29" ∧ App.r_date b = u "2024-09-22" ∧
         str_leb (App.r_date b) (App.r_date a) = true.
Proof.
  do 2 eexists.
  split; [vm_compute; reflexivity|]. split; [vm_compute; reflexivity|].
  split; [reflexivity|]. split; [reflexivity|].
  eapply (C9_team_results_sorted_descending streak_frame (u "Girona") 0 1);
    [lia | vm_compute; reflexivity | vm_compute; reflexivity].
Defined.



(** ** Streak windows *)

Lemma outcome_str_single o : ∃ c, outcome_str o = [c].
Proof. destruct o; by eexists. Qed.

Lemma outcome_str_inj o1 o2 c1 c2 :
  outcome_str o1 = [c1] → outcome_str o2 = [c2] → c1 = c2 → o1 = o2.
Proof. destruct o1, o2; vm_compute; congruence. Qed.

Lemma str_repeat_S s (n : nat) :
  str_repeat s (Z.of_nat (S n)) = s ++ str_repeat s (Z.of_nat n).
Proof. unfold str_repeat. by rewrite !Nat2Z.id. Qed.

(** The joined results of a window are [n] times the letter of [o] exactly
    when the window has [n] rows and all of them have the result [o]. *)
Lemma join_eq_repeat o (rows : list App.TeamResult) :
  join (outcome_str ∘ App.result <$> rows)
  = str_repeat (outcome_str o) (Z.of_nat (length rows))
  ↔ all_are o rows = true.
Proof.
  induction rows as [|r rows IH]; [done|].
  rewrite fmap_cons. cbn [length]. rewrite str_repeat_S.
  unfold join in *. cbn [concat all_are forallb compose].
  destruct (outcome_str_single (App.result r)) as [c1 Hc1].
  destruct (outcome_str_single o) as [c2 Hc2].
  rewrite Hc1, Hc2. simpl. rewrite andb_true_iff, bool_decide_eq_true.
  fold (all_are o rows). rewrite <- IH, Hc2. split.
  - intros [= -> ?]. split; [by eapply outcome_str_inj | done].
  - intros [<- ->]. congruence.
Qed.

(** A window whose joined results repeat the letter of [o] starts with a
    row of result [o]. *)
Lemma join_eq_repeat_first o count (last : list App.TeamResult) first :
  last !! 0%nat = Some first →
  join (outcome_str ∘ App.result <$> last) = str_repeat (outcome_str o) count →
  App.result first = o.
Proof.
  destruct last as [|r rows]; [done|]. intros [= ->].
  rewrite fmap_cons. unfold join, str_repeat. cbn [concat compose].
  destruct (outcome_str_single (App.result first)) as [c1 Hc1].
  destruct (outcome_str_single o) as [c2 Hc2].
  rewrite Hc1, Hc2. destruct (Z.to_nat count); simpl; [done|].
  intros [= -> _]. by eapply outcome_str_inj.
Qed.

Lemma head_lookup_0 {A} (n : Z) (l : list A) x :
  head n l !! 0%nat = Some x → l !! 0%nat = Some x.
Proof.
  unfold head. destruct (0 <=? n); intros H;
    apply lookup_take_Some in H; tauto.
Qed.

Lemma head_nonneg {A} (n : Z) (l : list A) :
  0 ≤ n → head n l = take (Z.to_nat n) l.
Proof. unfold head. intros Hn. by rewrite (proj2 (Z.leb_le 0 n) Hn). Qed.

(** ** The two checks of [find_game_streaks] *)

(** A check leaves the list as it is, or appends one entry for the team,
    and then the team's most recent result is the letter checked. *)
Lemma check_streak_Ok o count team results streaks streaks' :
  App.check_streak o count team results streaks = Ok streaks' →
  streaks' = streaks ∨
  ∃ first s, results !! 0%nat = Some first ∧ App.result first = o ∧
             App.team s = team ∧ streaks' = streaks ++ [s].
Proof.
  unfold App.check_streak. intros H.
  case_bool_decide; [|left; by simplify_eq].
  case_bool_decide as Hstr; [|left; by simplify_eq].
  inv_bind H. apply or_raise_Ok in Hv. simplify_eq.
  right. eexists v, _. split; [by eapply head_lookup_0|].
  split; [by eapply join_eq_repeat_first|].
  split; [|reflexivity]. reflexivity.
Qed.

(** Whatever the two lengths are: when [find_game_streaks] returns, every
    team of the win list has a win as most recent result, and every team
    of the loss list a loss. *)
Lemma find_game_streaks_leads set_iter df w l wins losses :
  App.find_game_streaks set_iter df w l = Ok (wins, losses) →
  Forall (leads_with df Win) wins ∧ Forall (leads_with df Loss) losses.
Proof.
  unfold App.find_game_streaks.
  apply (for_in_invariant
           (λ st : list App.Streak * list App.Streak,
              Forall (leads_with df Win) st.1 ∧ Forall (leads_with df Loss) st.2)).
  { split; constructor. }
  intros [ws ls] team [ws' ls'] _ [Hws Hls] Hbody. simpl in *.
  case_bool_decide; [simplify_eq; by split|].
  inv_bind Hbody. inv_bind Hbody. simplify_eq.
  split.
  - apply check_streak_Ok in Hv as [->|(f1 & s1 & ? & ? & Ht & ->)]; [done|].
    apply Forall_app. split; [done|]. apply Forall_singleton.
    exists f1. by rewrite Ht.
  - apply check_streak_Ok in Hv0 as [->|(f2 & s2 & ? & ? & Ht & ->)]; [done|].
    apply Forall_app. split; [done|]. apply Forall_singleton.
    exists f2. by rewrite Ht.
Qed.

Lemma leads_with_exclusive df s1 s2 :
  leads_with df Win s1 → leads_with df Loss s2 → App.team s1 ≠ App.team s2.
Proof. intros (f1 & H1 & Hw) (f2 & H2 & Hl) Heq. rewrite Heq in H1. congruence. Qed.

(** C7, as the code has it: the loss check is run whatever the win check
    found, but both read the team's most recent result, which is not a win
    and a loss at once; so for every frame and every pair of lengths, equal
    or not, no team is in both lists. *)
Theorem C7_no_team_in_both_groups set_iter df w l wins losses team :
  App.find_game_streaks set_iter df w l = Ok (wins, losses) →
  ¬ (team ∈ App.team <$> wins ∧ team ∈ App.team <$> losses).
Proof.
  intros H [Hw Hl].
  apply find_game_streaks_leads in H as [Hwins Hlosses].
  apply list_elem_of_fmap in Hw as (s1 & -> & Hs1).
  apply list_elem_of_fmap in Hl as (s2 & Heq & Hs2).
  rewrite Forall_forall in Hwins, Hlosses.
  by eapply leads_with_exclusive; [apply Hwins | apply Hlosses |].
Qed.

(** C7 as stated fails: no frame, pair of different lengths and team are
    such that the team is in both lists. *)
Lemma C7_both_groups_impossible :
  ¬ ∃ set_iter df w l wins losses team,
      w ≠ l ∧
      App.find_game_streaks set_iter df w l = Ok (wins, losses) ∧
      team ∈ App.team <$> wins ∧ team ∈ App.team <$> losses.
Proof.
  intros (set_iter & df & w & l & wins & losses & team & _ & H & Hw & Hl).
  apply find_game_streaks_leads in H as [Hwins Hlosses].
  apply list_elem_of_fmap in Hw as (s1 & -> & Hs1).
  apply list_elem_of_fmap in Hl as (s2 & Heq & Hs2).
  rewrite Forall_forall in Hwins, Hlosses.
  by eapply leads_with_exclusive; [apply Hwins | apply Hlosses |].
Qed.

Lemma C7_witness :
  ∃ wins losses,
    App.find_game_streaks elements streak_frame 3 2 = Ok (wins, losses) ∧
    u "Girona" ∈ App.team <$> wins ∧
    ¬ (u "Girona" ∈ App.team <$> wins ∧ u "Girona" ∈ App.team <$> losses).
Proof.
  do 2 eexists. split; [vm_compute; reflexivity|].
  split; [apply (bool_decide_unpack _); vm_compute; exact I|].
  apply (C7_no_team_in_both_groups elements streak_frame 3 2).
  vm_compute; reflexivity.
Defined.

(** ** The analyzer with positive lengths *)

(** A loop whose turns append to two lists. *)
Lemma for_in_append2 {A B C} (xs : list A) body
    (f : A → list B) (g : A → list C) bs cs :
  (∀ bs cs x, x ∈ xs → body (bs, cs) x = Ok (bs ++ f x, cs ++ g x)) →
  for_in xs body (bs, cs) = Ok (bs ++ (xs ≫= f), cs ++ (xs ≫= g)).
Proof.
  revert bs cs. induction xs as [|x xs IH]; intros bs cs Hbody; simpl.
  - by rewrite !app_nil_r.
  - rewrite Hbody; [|by left]. simpl.
    rewrite IH; [|intros; apply Hbody; by right].
    by rewrite <- !app_assoc.
Qed.

(** With a positive length that the team's results reach, a check appends
    the entry of the window when all its rows carry the letter. *)
Lemma check_streak_positive o count team results streaks :
  1 ≤ count → count ≤ Z.of_nat (length results) →
  App.check_streak o count team results streaks
  = Ok (streaks ++
        match take (Z.to_nat count) results with
        | (first :: _) as last =>
          if all_are o last
          then [ {| App.team := team;
                    App.s_league_name := App.r_league_name first;
                    App.s_league_id := App.r_league_id first;
                    App.games := last |} ]
          else []
        | [] => []
        end).
Proof.
  intros Hpos Hlen. unfold App.check_streak.
  rewrite bool_decide_eq_true_2 by done.
  rewrite head_nonneg by lia.
  assert (length (take (Z.to_nat count) results) = Z.to_nat count) as Hl
    by (rewrite length_take; lia).
  pose proof (join_eq_repeat o (take (Z.to_nat count) results)) as Hjoin.
  rewrite Hl, Z2Nat.id in Hjoin by lia.
  destruct (take (Z.to_nat count) results) as [|first rest] eqn:Htake.
  { simpl in Hl. lia. }
  destruct (all_are o (first :: rest)) eqn:Hall.
  - rewrite bool_decide_eq_true_2 by (by apply Hjoin). done.
  - rewrite bool_decide_eq_false_2; [by rewrite app_nil_r|].
    intros Heq. apply Hjoin in Heq. congruence.
Qed.

Lemma find_game_streaks_positive set_iter df w l :
  1 ≤ w → 1 ≤ l →
  let need := Nat.max (Z.to_nat w) (Z.to_nat l) in
  App.find_game_streaks set_iter df w l
  = Ok (set_iter (App.teams df) ≫= streak_entry Win (Z.to_nat w) need df,
        set_iter (App.teams df) ≫= streak_entry Loss (Z.to_nat l) need df).
Proof.
  intros Hw Hl need. unfold App.find_game_streaks.
  apply (for_in_append2 _ _ (streak_entry Win (Z.to_nat w) need df)
                            (streak_entry Loss (Z.to_nat l) need df) [] []).
  intros ws ls team _. unfold streak_entry.
  case_bool_decide as Hshort.
  - rewrite (bool_decide_eq_false_2 (need ≤ _)%nat) by (unfold need; lia).
    simpl. by destruct (take _ _), (take _ _); rewrite !app_nil_r.
  - rewrite (bool_decide_eq_true_2 (need ≤ _)%nat) by (unfold need; lia).
    rewrite !check_streak_positive by lia. simpl.
    by destruct (take _ _), (take _ _).
Qed.

Lemma streak_entry_team o count need df team s :
  s ∈ streak_entry o count need df team → App.team s = team.
Proof.
  unfold streak_entry. destruct (take _ _); [by intros ?%elem_of_nil|].
  destruct (_ && _); [|by intros ?%elem_of_nil].
  by intros ->%list_elem_of_singleton.
Qed.

(** A team with a result is one of the frame's teams. *)
Lemma results_team_in_teams df team :
  App.get_team_results df team ≠ [] → team ∈ App.teams df.
Proof.
  unfold App.get_team_results, App.teams. intros Hne.
  assert (∃ m, m ∈ df ∧ (App.home_team m = team ∨ App.away_team m = team))
    as (m & Hm & Hside).
  { destruct (filter (λ m, App.home_team m = team) df) as [|m ms] eqn:Hh.
    - destruct (filter (λ m, App.away_team m = team) df) as [|m ms] eqn:Ha;
        [done|].
      assert (m ∈ filter (λ m, App.away_team m = team) df) as Hin
        by (rewrite Ha; by left).
      apply list_elem_of_filter in Hin as [? ?]. eauto.
    - assert (m ∈ filter (λ m, App.home_team m = team) df) as Hin
        by (rewrite Hh; by left).
      apply list_elem_of_filter in Hin as [? ?]. eauto. }
  apply elem_of_union. destruct Hside as [<-|<-]; [left|right];
    apply elem_of_list_to_set, elem_of_remove_dups, list_elem_of_fmap; eauto.
Qed.



(** ** The two scripts *)

Lemma filter_fmap {A B} (f : A → B) (P : B → Prop) `{!∀ y, Decision (P y)}
    (l : list A) :
  filter P (f <$> l) = f <$> filter (λ x, P (f x)) l.
Proof.
  induction l as [|x l IH]; [done|].
  rewrite fmap_cons, !filter_cons. case_decide; by rewrite IH.
Qed.

Lemma max_teams df : Max.teams (to_max <$> df) = App.teams df.
Proof.
  unfold Max.teams, App.teams. by rewrite <- !list_fmap_compose.
Qed.

Lemma max_get_team_results df team :
  Max.get_team_results (to_max <$> df) team
  = row_to_max <$> App.get_team_results df team.
Proof.
  unfold Max.get_team_results, App.get_team_results.
  rewrite !filter_fmap.
  change (filter (λ x, Max.home_team (to_max x) = team) df)
    with (filter (λ m, App.home_team m = team) df).
  change (filter (λ x, Max.away_team (to_max x) = team) df)
    with (filter (λ m, App.away_team m = team) df).
  set (home_games := filter (λ m, App.home_team m = team) df).
  set (away_games := filter (λ m, App.away_team m = team) df).
  transitivity
    (Max.with_result <$>
       sort_values_desc (λ g : Max.MatchRecord * Derived, Max.date g.1)
         (prod_map to_max id <$>
            ((App.home_view <$> home_games) ++ (App.away_view <$> away_games)))).
  { do 2 f_equal. by rewrite fmap_app, <- !list_fmap_compose. }
  rewrite (sort_values_desc_fmap (λ g : App.MatchRecord * Derived, App.date g.1))
    by (by intros [m d]).
  rewrite <- !list_fmap_compose. apply list_fmap_ext. by intros _ [m d] _.
Qed.

Lemma all_are_exclusive r rows :
  all_are Win (r :: rows) = true → all_are Loss (r :: rows) = false.
Proof.
  cbn [all_are forallb]. intros [Hw _]%andb_true_iff.
  apply bool_decide_eq_true in Hw. rewrite Hw.
  by rewrite (bool_decide_eq_false_2 (Win = Loss)).
Qed.

Lemma max_join_results (rows : list App.TeamResult) :
  join (outcome_str ∘ Max.result <$> (row_to_max <$> rows))
  = join (outcome_str ∘ App.result <$> rows).
Proof. by rewrite <- list_fmap_compose. Qed.

(** [max.py]'s analyzer on a frame of [app.py], in closed form. *)
Lemma find_3_game_streaks_closed set_iter df :
  Max.find_3_game_streaks set_iter (to_max <$> df)
  = Ok (set_iter (App.teams df)
          ≫= (λ team, streak_to_max <$> streak_entry Win 3 3 df team),
        set_iter (App.teams df)
          ≫= (λ team, streak_to_max <$> streak_entry Loss 3 3 df team)).
Proof.
  unfold Max.find_3_game_streaks. rewrite max_teams.
  apply (for_in_append2 _ _
           (λ team, streak_to_max <$> streak_entry Win 3 3 df team)
           (λ team, streak_to_max <$> streak_entry Loss 3 3 df team) [] []).
  intros tw tl team _. rewrite max_get_team_results, length_fmap.
  unfold streak_entry.
  case_bool_decide as Hshort.
  { rewrite (bool_decide_eq_false_2 (3 ≤ _)%nat) by lia.
    simpl. by destruct (take 3 _); rewrite !app_nil_r. }
  rewrite (bool_decide_eq_true_2 (3 ≤ _)%nat) by lia.
  rewrite head_nonneg by lia. change (Z.to_nat 3) with 3%nat.
  rewrite <- fmap_take, max_join_results.
  assert (length (take 3 (App.get_team_results df team)) = 3%nat) as Hlen
    by (rewrite length_take; lia).
  pose proof (join_eq_repeat Win (take 3 (App.get_team_results df team))) as Hw.
  pose proof (join_eq_repeat Loss (take 3 (App.get_team_results df team))) as Hl.
  rewrite Hlen in Hw, Hl.
  change (str_repeat (outcome_str Win) (Z.of_nat 3)) with (u "WWW") in Hw.
  change (str_repeat (outcome_str Loss) (Z.of_nat 3)) with (u "LLL") in Hl.
  destruct (take 3 (App.get_team_results df team)) as [|first rest] eqn:Htake;
    [done|].
  cbn [andb].
  destruct (all_are Win (first :: rest)) eqn:Hallw.
  - rewrite (all_are_exclusive _ _ Hallw).
    rewrite bool_decide_eq_true_2 by (by apply Hw).
    simpl. by rewrite app_nil_r.
  - rewrite bool_decide_eq_false_2
      by (intros Heq; apply Hw in Heq; congruence).
    destruct (all_are Loss (first :: rest)) eqn:Halll.
    + rewrite bool_decide_eq_true_2 by (by apply Hl).
      simpl. by rewrite app_nil_r.
    + rewrite bool_decide_eq_false_2
        by (intros Heq; apply Hl in Heq; congruence).
      simpl. by rewrite !app_nil_r.
Qed.

Lemma fmap_bind_list {A B C} (f : B → C) (g : A → list B) (l : list A) :
  f <$> (l ≫= g) = l ≫= (λ x, f <$> g x).
Proof.
  induction l as [|x l IH]; [done|].
  by rewrite !bind_cons, fmap_app, IH.
Qed.

(** C10: on the same matches, [app.py]'s analyzer with both lengths 3 and
    [max.py]'s analyzer both return, and up to the order in which each
    visits the teams they return the same win entries and the same loss
    entries: same teams, same league names, same three rows. *)
Theorem C10_scripts_agree_on_three_game_streaks set_iter set_iter' df :
  set_order set_iter → set_order set_iter' →
  ∃ wins losses three_wins three_losses,
    App.find_game_streaks set_iter df 3 3 = Ok (wins, losses) ∧
    Max.find_3_game_streaks set_iter' (to_max <$> df)
    = Ok (three_wins, three_losses) ∧
    streak_to_max <$> wins ≡ₚ three_wins ∧
    streak_to_max <$> losses ≡ₚ three_losses.
Proof.
  intros Hiter Hiter'.
  rewrite find_game_streaks_positive by lia.
  rewrite find_3_game_streaks_closed.
  do 4 eexists. split; [reflexivity|]. split; [reflexivity|].
  change (Nat.max (Z.to_nat 3) (Z.to_nat 3)) with 3%nat.
  change (Z.to_nat 3) with 3%nat.
  rewrite !fmap_bind_list.
  split; apply bind_Permutation; by rewrite (Hiter _), (Hiter' _).
Qed.

Lemma C10_witness :
  ∃ wins losses three_wins three_losses,
    App.find_game_streaks elements streak_frame 3 3 = Ok (wins, losses) ∧
    Max.find_3_game_streaks elements (to_max <$> streak_frame)
    = Ok (three_wins, three_losses) ∧
    streak_to_max <$> wins ≡ₚ three_wins ∧
    streak_to_max <$> losses ≡ₚ three_losses.
Proof.
  apply (C10_scripts_agree_on_three_game_streaks elements elements streak_frame);
    intros X; reflexivity.
Defined.

(** * Further properties of the extractor *)

Lemma enumerate_app {A} (l : list A) x :
  enumerate (l ++ [x]) = enumerate l ++ [(length l, x)].
Proof.
  unfold enumerate. rewrite imap_app. simpl. by rewrite Nat.add_0_r.
Qed.

Lemma make_col_map_snoc headers h :
  make_col_map (headers ++ [h]) = <[h := length headers]> (make_col_map headers).
Proof. unfold make_col_map. by rewrite enumerate_app, foldl_app. Qed.

Lemma make_col_map_last headers h i :
  make_col_map headers !! h = Some i ↔ last_column headers h i.
Proof.
  unfold last_column. revert i.
  induction headers as [|x headers IH] using rev_ind; intros i.
  - unfold make_col_map. simpl. rewrite lookup_empty.
    split; [done | by intros [? _]].
  - rewrite make_col_map_snoc. destruct (decide (x = h)) as [->|Hne].
    + rewrite lookup_insert_eq. split.
      * intros [= <-]. split.
        { by rewrite lookup_app_r, Nat.sub_diag by lia. }
        intros j Hj Hlk. apply lookup_lt_Some in Hlk.
        rewrite length_app in Hlk. simpl in Hlk. lia.
      * intros [Hi Hlast]. f_equal.
        apply lookup_lt_Some in Hi as Hlt. rewrite length_app in Hlt.
        simpl in Hlt. destruct (decide (i = length headers)) as [|Hne]; [done|].
        exfalso. apply (Hlast (length headers)); [lia|].
        by rewrite lookup_app_r, Nat.sub_diag by lia.
    + rewrite lookup_insert_ne by done. rewrite IH. split.
      * intros [Hi Hlast]. split; [by apply lookup_app_l_Some|].
        intros j Hj Hlk. apply lookup_snoc_Some in Hlk as [[? Hlk]|[? ?]];
          [by eapply Hlast | done].
      * intros [Hi Hlast]. apply lookup_snoc_Some in Hi as [[? Hi]|[? ?]];
          [|done].
        split; [done|]. intros j Hj Hlk. eapply (Hlast j); [done|].
        by apply lookup_app_l_Some.
Qed.

Lemma make_col_map_is_Some headers h :
  h ∈ headers → is_Some (make_col_map headers !! h).
Proof.
  induction headers as [|x headers IH] using rev_ind; [by intros ?%elem_of_nil|].
  rewrite make_col_map_snoc. intros Hin.
  destruct (decide (x = h)) as [->|Hne]; [by rewrite lookup_insert_eq|].
  rewrite lookup_insert_ne by done. apply IH.
  apply elem_of_app in Hin as [?|Hin]; [done|].
  by apply list_elem_of_singleton in Hin.
Qed.

Lemma make_col_map_elem headers h i :
  make_col_map headers !! h = Some i → h ∈ headers.
Proof.
  intros Hi. destruct (decide (h ∈ headers)) as [|Hn]; [done|].
  apply make_col_map_None in Hn. congruence.
Qed.

(** X1: the column map sends a name to the last column that carries it:
    when a header name occurs more than once, the later column replaces
    the earlier one. *)
Theorem X1_col_map_last_occurrence headers h i :
  make_col_map headers !! h = Some i ↔ last_column headers h i.
Proof. apply make_col_map_last. Qed.

Lemma omap_length_le {A B} (g : A → option B) (l : list A) :
  (length (omap g l) ≤ length l)%nat.
Proof.
  induction l as [|x l IH]; [done|]. csimpl.
  destruct (g x); simpl; lia.
Qed.

(** A loop whose turns never raise appends what they produce, in order. *)
Lemma for_in_omap {A B} (f : A → Exc (option B)) (g : A → option B)
    (rows : list A) acc :
  (∀ row, f row = Ok (g row)) →
  for_in rows
    (λ ms row, r ← f row;
               Ok (match r with Some m => ms ++ [m] | None => ms end)) acc
  = Ok (acc ++ omap g rows).
Proof.
  intros Hf. revert acc. induction rows as [|row rows IH]; intros acc; simpl.
  - by rewrite app_nil_r.
  - rewrite Hf. simpl. rewrite IH. destruct (g row); [|done].
    by rewrite <- app_assoc.
Qed.

Section TableFacts.
Context (env : PyEnv).

Lemma scrape_row_emitted name id d h s a hx ax row :
  App.scrape_row env name id d h s a hx ax row
  = Ok (emitted env name id d h s a hx ax row).
Proof.
  unfold emitted.
  by destruct (app_scrape_row_total env name id d h s a hx ax row) as [r ->].
Qed.

(** The extractor on a table with a header row that has the four required
    columns, and a body. *)
Lemma scrape_league_on_table name id resp table trs hr d h s a rows :
  LEAGUES !! name = Some id →
  find_schedule_table resp = Some table →
  thead table = Some trs → last trs = Some hr →
  make_col_map (header_names hr) !! u "Date" = Some d →
  make_col_map (header_names hr) !! u "Home" = Some h →
  make_col_map (header_names hr) !! u "Score" = Some s →
  make_col_map (header_names hr) !! u "Away" = Some a →
  tbody table = Some rows →
  App.scrape_league env name resp
  = Ok (omap (emitted env name id d h s a
                (home_xg_index (header_names hr))
                (away_xg_index (header_names hr))) rows).
Proof.
  intros Hid Htable Hthead Hlast Hd Hh Hs Ha Hbody.
  unfold App.scrape_league, header_names in *.
  rewrite Hid, Htable, Hthead, Hlast. simpl.
  rewrite Hd, Hh, Hs, Ha, Hbody. simpl.
  apply (for_in_omap _ _ rows []). intros row. apply scrape_row_emitted.
Qed.

(** The extractor on a table with a header row that lacks a required
    column. *)
Lemma scrape_league_missing_column name id resp table trs hr :
  LEAGUES !! name = Some id →
  find_schedule_table resp = Some table →
  thead table = Some trs → last trs = Some hr →
  ¬ (u "Date" ∈ header_names hr ∧ u "Home" ∈ header_names hr ∧
     u "Score" ∈ header_names hr ∧ u "Away" ∈ header_names hr) →
  App.scrape_league env name resp = Ok [].
Proof.
  intros Hid Htable Hthead Hlast Hmissing.
  unfold App.scrape_league, header_names in *.
  rewrite Hid, Htable, Hthead, Hlast. simpl.
  destruct (make_col_map _ !! u "Date") as [d|] eqn:Hd; [|done].
  destruct (make_col_map _ !! u "Home") as [h|] eqn:Hh; [|done].
  destruct (make_col_map _ !! u "Score") as [s|] eqn:Hs; [|done].
  destruct (make_col_map _ !! u "Away") as [a|] eqn:Ha; [|done].
  exfalso. apply Hmissing.
  repeat split; eapply make_col_map_elem; eauto.
Qed.
End TableFacts.

(** X2: on a page whose schedule table has a header row with the four
    required columns and a body, the extractor does not raise, whatever the
    body rows hold: it returns what the rows give, in table order, at most
    one record per row. *)
Theorem X2_records_follow_table_order
    env name id resp table trs hr d h s a rows :
  LEAGUES !! name = Some id →
  find_schedule_table resp = Some table →
  thead table = Some trs → last trs = Some hr →
  last_column (header_names hr) (u "Date") d →
  last_column (header_names hr) (u "Home") h →
  last_column (header_names hr) (u "Score") s →
  last_column (header_names hr) (u "Away") a →
  tbody table = Some rows →
  ∃ records,
    App.scrape_league env name resp = Ok records ∧
    records = omap (emitted env name id d h s a
                      (home_xg_index (header_names hr))
                      (away_xg_index (header_names hr))) rows ∧
    (length records ≤ length rows)%nat.
Proof.
  intros Hid Htable Hthead Hlast Hd Hh Hs Ha Hbody.
  apply make_col_map_last in Hd, Hh, Hs, Ha.
  eexists. split; [by eapply scrape_league_on_table|].
  split; [done|]. apply omap_length_le.
Qed.

Lemma X2_witness :
  ∃ records,
    App.scrape_league ascii_env (u "La Liga") played_page = Ok records ∧
    records = omap (emitted ascii_env (u "La Liga") 12 0 1 2 3 None None)
                   [tr ["2024-08-17"; "Girona"; "2–1"; "Betis"]%string;
                    tr ["2024-08-18"; "Getafe"; "postponed"; "Celta"]%string] ∧
    (length records ≤ 2)%nat.
Proof.
  apply (X2_records_follow_table_order ascii_env (u "La Liga") 12 played_page
           {| thead := Some [plain_header];
              tbody := Some [tr ["2024-08-17"; "Girona"; "2–1"; "Betis"]%string;
                             tr ["2024-08-18"; "Getafe"; "postponed"; "Celta"]%string] |}
           [plain_header] plain_header 0 1 2 3);
    try reflexivity;
    (split; [reflexivity|]);
    intros [|[|[|[|[|j]]]]] Hj; try lia; vm_compute; congruence.
Defined.

(** X3: the extractor raises in three cases only: [KeyError] when the
    league name is not in [LEAGUES]; [IndexError] when the schedule table
    has a [thead] without any row; [AttributeError] when the header row has
    the four required columns and the table has no [tbody]. *)
Theorem X3_extractor_exceptions env name resp e :
  App.scrape_league env name resp = Raise e ↔
  (e = KeyError ∧ LEAGUES !! name = None) ∨
  (is_Some (LEAGUES !! name) ∧
   ∃ table, find_schedule_table resp = Some table ∧
     ((e = IndexError ∧ thead table = Some []) ∨
      (e = AttributeError ∧ tbody table = None ∧
       ∃ trs hr, thead table = Some trs ∧ last trs = Some hr ∧
                 u "Date" ∈ header_names hr ∧ u "Home" ∈ header_names hr ∧
                 u "Score" ∈ header_names hr ∧ u "Away" ∈ header_names hr))).
Proof.
  split.
  - intros H. destruct (LEAGUES !! name) as [id|] eqn:Hid.
    + right. split; [done|].
      destruct (find_schedule_table resp) as [table|] eqn:Htable.
      2:{ rewrite (app_handled_failures env name id) in H by eauto. done. }
      exists table. split; [done|].
      destruct (thead table) as [trs|] eqn:Hthead.
      2:{ rewrite (app_handled_failures env name id) in H by eauto. done. }
      destruct (last trs) as [hr|] eqn:Hlast.
      2:{ apply last_None in Hlast as ->. left. split; [|done].
          unfold App.scrape_league in H.
          rewrite Hid, Htable, Hthead in H. simpl in H. congruence. }
      right.
      destruct (decide (u "Date" ∈ header_names hr ∧ u "Home" ∈ header_names hr ∧
                        u "Score" ∈ header_names hr ∧ u "Away" ∈ header_names hr))
        as [Hall|Hmissing].
      2:{ rewrite (scrape_league_missing_column env name id resp table trs hr)
            in H by done. done. }
      destruct Hall as (Hd & Hh & Hs & Ha).
      destruct (make_col_map_is_Some _ _ Hd) as [d Hd'].
      destruct (make_col_map_is_Some _ _ Hh) as [h Hh'].
      destruct (make_col_map_is_Some _ _ Hs) as [s Hs'].
      destruct (make_col_map_is_Some _ _ Ha) as [a Ha'].
      destruct (tbody table) as [rows|] eqn:Hbody.
      { rewrite (scrape_league_on_table env name id resp table trs hr d h s a rows)
          in H by done. done. }
      unfold App.scrape_league, header_names in *.
      rewrite Hid, Htable, Hthead, Hlast in H. simpl in H.
      rewrite Hd', Hh', Hs', Ha', Hbody in H. simpl in H.
      split; [congruence|]. split; [done|]. by exists trs, hr.
    + left. unfold App.scrape_league in H. rewrite Hid in H. simpl in H.
      split; [congruence | done].
  - intros [[-> Hid] | ([id Hid] & table & Htable & Hcase)].
    + unfold App.scrape_league. by rewrite Hid.
    + unfold App.scrape_league. rewrite Hid, Htable. simpl.
      destruct Hcase as [[-> Hthead] | (-> & Hbody & trs & hr & Hthead & Hlast
                                        & Hd & Hh & Hs & Ha)].
      * by rewrite Hthead.
      * rewrite Hthead, Hlast. simpl.
        destruct (make_col_map_is_Some _ _ Hd) as [d Hd'].
        destruct (make_col_map_is_Some _ _ Hh) as [h Hh'].
        destruct (make_col_map_is_Some _ _ Hs) as [s Hs'].
        destruct (make_col_map_is_Some _ _ Ha) as [a Ha'].
        unfold header_names in *. by rewrite Hd', Hh', Hs', Ha', Hbody.
Qed.

(** X4: for a league of [LEAGUES], a failed request, an answer with a
    status other than 200 (429 included), a page without a [div] whose id
    starts with [div_sched_], and a first such [div] without a table all
    give the empty frame. *)
Theorem X4_unusable_answers_give_empty env name id :
  LEAGUES !! name = Some id →
  App.scrape_league env name RequestFailed = Ok [] ∧
  (∀ status divs, status ≠ 200 →
     App.scrape_league env name (Response status divs) = Ok []) ∧
  (∀ divs, Forall (λ d, is_sched_div d = false) divs →
     App.scrape_league env name (Response 200 divs) = Ok []) ∧
  (∀ before div after,
     Forall (λ d, is_sched_div d = false) before →
     is_sched_div div = true → div_table div = None →
     App.scrape_league env name (Response 200 (before ++ div :: after)) = Ok []).
Proof.
  intros Hid.
  assert (∀ before rest, Forall (λ d, is_sched_div d = false) before →
            List.find is_sched_div (before ++ rest) = List.find is_sched_div rest)
    as Hfind.
  { intros before rest Hb. induction Hb as [|d before Hd _ IH]; [done|].
    simpl. by rewrite Hd. }
  repeat split.
  - by apply (app_handled_failures env name id); [|left].
  - intros status divs Hs. apply (app_handled_failures env name id); [done|].
    left. simpl. destruct (Z.eqb_spec status 429); [done|].
    by destruct (Z.eqb_spec status 200).
  - intros divs Hd. apply (app_handled_failures env name id); [done|].
    left. simpl. rewrite <- (app_nil_r divs), (Hfind _ [] Hd). done.
  - intros before div after Hb Hdiv Htab.
    apply (app_handled_failures env name id); [done|].
    left. simpl. rewrite (Hfind _ _ Hb). simpl. by rewrite Hdiv.
Qed.

Lemma X4_witness :
  App.scrape_league ascii_env (u "La Liga") RequestFailed = Ok [] ∧
  App.scrape_league ascii_env (u "La Liga") (Response 429 []) = Ok [].
Proof.
  destruct (X4_unusable_answers_give_empty ascii_env (u "La Liga") 12 eq_refl)
    as (H1 & H2 & _).
  split; [exact H1 | by apply H2].
Defined.

(** ** Rows *)

Lemma xg_text_value idx cols :
  xg_text idx cols
  = Ok (match idx with
        | Some (S i) => default [] (get_text_strip <$> cols !! S i)
        | _ => []
        end).
Proof.
  unfold xg_text. destruct idx as [[|i]|]; [done| |done]. simpl.
  case_bool_decide as Hlen.
  - destruct (lookup_lt_is_Some_2 cols (S i) Hlen) as [c Hc].
    by rewrite Hc.
  - rewrite lookup_ge_None_2 by lia. done.
Qed.

(** X5: a turn of the row loop appends a record exactly when the row is
    not a spacer, has a cell for each of the four required columns, and
    its score text parses; the record then carries the league passed in,
    the texts of the cells at the resolved columns, and the parsed
    scores. *)
Theorem X5_row_gives_record_iff env name id d h s a hx ax row m :
  App.scrape_row env name id d h s a hx ax row = Ok (Some m) ↔
  (u "spacer" ∉ tr_class row) ∧
  (Nat.max (Nat.max (Nat.max d h) s) a < length (tr_cols row))%nat ∧
  App.league_name m = name ∧ App.league_id m = id ∧
  cell_text row d = Some (App.date m) ∧
  cell_text row h = Some (App.home_team m) ∧
  cell_text row s = Some (App.score m) ∧
  cell_text row a = Some (App.away_team m) ∧
  xg_text hx (tr_cols row) = Ok (App.home_xg m) ∧
  xg_text ax (tr_cols row) = Ok (App.away_xg m) ∧
  App.parse_score env (App.score m)
  = Ok (Some (App.home_score m, App.away_score m)).
Proof.
  unfold App.scrape_row, cell_text. split.
  - intros H. case_bool_decide as Hsp; [done|].
    case_bool_decide as Hlen; [done|].
    apply except_continue_Some in H. unfold App.row_record in H.
    do 7 inv_bind H. apply or_raise_Ok in Hv, Hv0, Hv1, Hv2.
    destruct v5 as [[hs as_]|]; simplify_eq. simpl.
    repeat split; try done. lia.
  - intros (Hsp & Hlen & Hn & Hi & Hd & Hh & Hs & Ha & Hhx & Hax & Hp).
    rewrite bool_decide_eq_false_2 by done.
    rewrite bool_decide_eq_false_2 by lia.
    unfold App.row_record. rewrite Hd, Hh, Hs, Ha. simpl.
    rewrite Hhx, Hax. simpl. rewrite Hp. simpl.
    destruct m; simpl in *; by subst.
Qed.

Lemma find_xg_indices_snoc headers x :
  find_xg_indices (headers ++ [x])
  = find_xg_indices headers
    ++ (if decide (x = u "xG") then [length headers] else []).
Proof.
  unfold find_xg_indices. rewrite enumerate_app, filter_app, fmap_app.
  f_equal. rewrite filter_cons, filter_nil. simpl. by case_decide.
Qed.

Lemma find_xg_indices_bound headers i :
  i ∈ find_xg_indices headers → (i < length headers)%nat.
Proof.
  induction headers as [|x headers IH] using rev_ind; [by intros ?%elem_of_nil|].
  rewrite find_xg_indices_snoc, length_app. simpl.
  intros [Hi|Hi]%elem_of_app; [apply IH in Hi; lia|].
  case_decide; [|by apply elem_of_nil in Hi].
  apply list_elem_of_singleton in Hi. lia.
Qed.

(** The [xG] columns are listed from left to right. *)
Lemma find_xg_indices_sorted headers :
  StronglySorted lt (find_xg_indices headers).
Proof.
  induction headers as [|x headers IH] using rev_ind; [constructor|].
  rewrite find_xg_indices_snoc. apply StronglySorted_app. split; [|split].
  - intros i j Hi Hj. apply find_xg_indices_bound in Hi.
    case_decide; [|by apply elem_of_nil in Hj].
    apply list_elem_of_singleton in Hj. lia.
  - done.
  - case_decide; repeat constructor.
Qed.

Lemma second_xg_index_positive headers j :
  find_xg_indices headers !! 1%nat = Some j → ∃ j', j = S j'.
Proof.
  intros Hj. pose proof (find_xg_indices_sorted headers) as Hs.
  destruct (find_xg_indices headers) as [|i [|j0 l]]; simplify_eq/=.
  apply StronglySorted_cons in Hs as [Hi _].
  apply Forall_cons in Hi as [Hij _]. destruct j; [lia|]. by eexists.
Qed.

Lemma xg_index_guards headers :
  home_xg_index headers = find_xg_indices headers !! 0%nat ∧
  away_xg_index headers = find_xg_indices headers !! 1%nat.
Proof.
  unfold home_xg_index, away_xg_index.
  destruct (find_xg_indices headers) as [|i [|j l]]; done.
Qed.

(** X6: on whatever page the extractor returns records, every record comes
    from a body row of the schedule table; its away expected-goals value
    is the text of that row's cell under the second column named [xG]
    (empty when the header has fewer than two such columns or the row has
    no such cell), and its home value is the text of the cell under the
    first column named [xG], unless that column is the first of the table
    or there is none: then it is empty. *)
Theorem X6_xg_values_of_records env name resp records table trs hr :
  App.scrape_league env name resp = Ok records →
  find_schedule_table resp = Some table →
  thead table = Some trs → last trs = Some hr →
  Forall (λ m, ∃ rows row,
            tbody table = Some rows ∧ row ∈ rows ∧
            App.home_xg m
            = match find_xg_indices (header_names hr) !! 0%nat with
              | Some (S i) => cell_text_or_empty row (S i)
              | _ => []
              end ∧
            App.away_xg m
            = match find_xg_indices (header_names hr) !! 1%nat with
              | Some j => cell_text_or_empty row j
              | None => []
              end) records.
Proof.
  intros H Htable Hthead Hlast.
  apply bind_Ok in H as Hid. destruct Hid as (id & Hid & _).
  apply or_raise_Ok in Hid.
  destruct (decide (u "Date" ∈ header_names hr ∧ u "Home" ∈ header_names hr ∧
                    u "Score" ∈ header_names hr ∧ u "Away" ∈ header_names hr))
    as [(Hd & Hh & Hs & Ha)|Hmissing].
  2:{ rewrite (scrape_league_missing_column env name id resp table trs hr)
        in H by done. simplify_eq. constructor. }
  destruct (make_col_map_is_Some _ _ Hd) as [d Hd'].
  destruct (make_col_map_is_Some _ _ Hh) as [h Hh'].
  destruct (make_col_map_is_Some _ _ Hs) as [s Hs'].
  destruct (make_col_map_is_Some _ _ Ha) as [a Ha'].
  destruct (tbody table) as [rows|] eqn:Hbody.
  2:{ unfold App.scrape_league, header_names in *.
      rewrite Hid, Htable, Hthead, Hlast in H. simpl in H.
      rewrite Hd', Hh', Hs', Ha', Hbody in H. done. }
  rewrite (scrape_league_on_table env name id resp table trs hr d h s a rows)
    in H by done.
  simplify_eq. apply Forall_forall. intros m Hm.
  apply list_elem_of_omap in Hm as (row & Hrow & Hm).
  exists rows, row. split; [done|]. split; [done|].
  unfold emitted in Hm.
  destruct (App.scrape_row _ _ _ _ _ _ _ _ _ _) as [r|] eqn:Hr; [|done].
  subst r. apply app_scrape_row_Some, app_row_record_Some in Hr
    as (_ & _ & _ & Hhx & Hax & _).
  rewrite xg_text_value in Hhx, Hax.
  injection Hhx as Hhx. injection Hax as Hax.
  destruct (xg_index_guards (header_names hr)) as [Eh Ea].
  rewrite Eh in Hhx. rewrite Ea in Hax. rewrite <- Hhx, <- Hax.
  unfold cell_text_or_empty, cell_text. split; [done|].
  destruct (find_xg_indices (header_names hr) !! 1%nat) as [j|] eqn:Hj; [|done].
  by destruct (second_xg_index_positive _ _ Hj) as [j' ->].
Qed.

Lemma X6_witness :
  ∃ records,
    App.scrape_league ascii_env (u "La Liga") xg_page = Ok records ∧
    length records = 1%nat ∧
    Forall (λ m, ∃ rows row,
              Some [xg_row] = Some rows ∧ row ∈ rows ∧
              App.home_xg m
              = match find_xg_indices (header_names xg_header) !! 0%nat with
                | Some (S i) => cell_text_or_empty row (S i)
                | _ => []
                end ∧
              App.away_xg m
              = match find_xg_indices (header_names xg_header) !! 1%nat with
                | Some j => cell_text_or_empty row j
                | None => []
                end) records.
Proof.
  eexists. split; [vm_compute; reflexivity|]. split; [reflexivity|].
  apply (X6_xg_values_of_records ascii_env (u "La Liga") xg_page _
           {| thead := Some [xg_header]; tbody := Some [xg_row] |}
           [xg_header] xg_header);
    [vm_compute; reflexivity | reflexivity | reflexivity | reflexivity].
Defined.

(** ** Score texts *)

Lemma split_without_sep sep s : sep ∉ s → split sep s = [s].
Proof.
  induction s as [|c s IH]; [done|]. intros [Hc Hs]%not_elem_of_cons.
  simpl. rewrite (proj2 (N.eqb_neq c sep)) by done. by rewrite IH.
Qed.

Lemma split_at_sep sep s1 s2 :
  sep ∉ s1 → split sep (s1 ++ sep :: s2) = s1 :: split sep s2.
Proof.
  induction s1 as [|c s1 IH]; simpl.
  - intros _. by rewrite N.eqb_refl.
  - intros [Hc Hs]%not_elem_of_cons.
    rewrite (proj2 (N.eqb_neq c sep)) by done. by rewrite IH.
Qed.

(** A split has one part more than the string has separators. *)
Lemma length_split sep s : length (split sep s) = S (occurrences sep s).
Proof.
  unfold occurrences. induction s as [|c s IH]; [done|].
  rewrite filter_cons. cbn [split]. destruct (N.eqb_spec c sep) as [->|Hne].
  - rewrite decide_True by done. cbn [length]. by rewrite IH.
  - rewrite decide_False by done.
    destruct (split sep s) as [|p ps] eqn:Hs; [by destruct (split_nonempty sep s)|].
    by rewrite <- IH.
Qed.

Lemma lstrip_spaces ws s : Forall (λ c, isspace c = true) ws →
  lstrip (ws ++ s) = lstrip s.
Proof. induction 1 as [|c ws Hc _ IH]; [done|]. simpl. by rewrite Hc. Qed.

Lemma lstrip_id c s : isspace c = false → lstrip (c :: s) = c :: s.
Proof. intros Hc. simpl. by rewrite Hc. Qed.

(** [strip] removes the whitespace around a text that neither starts nor
    ends with whitespace. *)
Lemma strip_padded ws1 ws2 body :
  Forall (λ c, isspace c = true) ws1 → Forall (λ c, isspace c = true) ws2 →
  body ≠ [] → Forall (λ c, isspace c = false) body →
  strip (ws1 ++ body ++ ws2) = body.
Proof.
  intros Hws1 Hws2 Hne Hbody. unfold strip, rstrip.
  rewrite lstrip_spaces by done.
  destruct body as [|c body]; [done|].
  apply Forall_cons in Hbody as Hb. destruct Hb as [Hc _].
  rewrite <- app_comm_cons, lstrip_id by done.
  rewrite app_comm_cons, reverse_app.
  rewrite lstrip_spaces by (by apply Forall_reverse).
  destruct (reverse (c :: body)) as [|c' r] eqn:Hrev.
  { apply (f_equal length) in Hrev. rewrite length_reverse in Hrev. done. }
  assert (isspace c' = false) as Hc'.
  { eapply (proj1 (Forall_forall _ _) Hbody).
    apply elem_of_reverse. rewrite Hrev. by left. }
  rewrite lstrip_id by done. rewrite <- Hrev. by rewrite reverse_involutive.
Qed.

Section DecimalFacts.
Context (env : PyEnv).

Lemma digit_value_decimal d :
  (d < 10)%N → digit_value env (48 + d) = Some d.
Proof.
  intros Hd. unfold digit_value.
  rewrite (proj2 (N.ltb_lt _ _)) by lia.
  rewrite (proj2 (N.leb_le 48 _)), (proj2 (N.leb_le _ 57)) by lia. simpl.
  f_equal. lia.
Qed.

Lemma int_digits_decimal ds acc n :
  Forall (λ d, d < 10)%N ds →
  int_digits env acc n (decimal ds)
  = Some (foldl (λ acc d, acc * 10 + d)%N acc ds, (n + length ds)%nat).
Proof.
  intros Hds. revert acc n.
  induction Hds as [|d ds Hd _ IH]; intros acc n; simpl.
  - by rewrite Nat.add_0_r.
  - rewrite digit_value_decimal by done. rewrite IH. do 2 f_equal. lia.
Qed.

(** [int] reads a numeral of at most 640 ASCII digits as its value, under
    every setting of the interpreter. *)
Lemma py_int_decimal ds :
  ds ≠ [] → Forall (λ d, d < 10)%N ds → (length ds ≤ 640)%nat →
  py_int env (decimal ds) = Some (Z.of_N (decimal_value ds)).
Proof.
  intros Hne Hds Hlen. destruct ds as [|d ds]; [done|].
  apply Forall_cons in Hds as [Hd Hds].
  unfold py_int, decimal_value. simpl.
  assert (int_isspace (48 + d) = false) as ->.
  { unfold int_isspace. rewrite (proj2 (N.ltb_lt _ _)) by lia.
    rewrite (proj2 (N.leb_gt _ 13)) by lia.
    rewrite (proj2 (N.eqb_neq _ 32)) by lia. by rewrite andb_false_r. }
  rewrite (proj2 (N.eqb_neq _ 45)), (proj2 (N.eqb_neq _ 43)) by lia.
  simpl. rewrite digit_value_decimal by done.
  fold (decimal ds). rewrite int_digits_decimal by done.
  unfold too_many_digits.
  rewrite (proj2 (Nat.ltb_ge 640 _)) by (simpl in *; lia). done.
Qed.
End DecimalFacts.

Lemma isspace_not_digit d : (d < 10)%N → isspace (48 + d) = false.
Proof.
  intros Hd.
  assert (d = 0 ∨ d = 1 ∨ d = 2 ∨ d = 3 ∨ d = 4 ∨ d = 5 ∨ d = 6 ∨ d = 7
          ∨ d = 8 ∨ d = 9)%N as Hcases by lia.
  repeat (destruct Hcases as [->|Hcases]; [reflexivity|]). by subst.
Qed.

Lemma isspace_not_separator c :
  isspace c = true → c ≠ hyphen ∧ c ≠ en_dash.
Proof. intros Hc. split; intros ->; by vm_compute in Hc. Qed.

Lemma padded_numeral_no_separator p ds p' c :
  Forall (λ c, isspace c = true) p → Forall (λ d, d < 10)%N ds →
  Forall (λ c, isspace c = true) p' →
  c = hyphen ∨ c = en_dash → c ∉ p ++ decimal ds ++ p'.
Proof.
  intros Hp Hds Hp' Hc Hin.
  assert (∀ ws, Forall (λ c, isspace c = true) ws → c ∉ ws) as Hws.
  { intros ws Hall Hcin. eapply Forall_forall in Hall; [|done].
    apply isspace_not_separator in Hall as [? ?]. by destruct Hc. }
  apply elem_of_app in Hin as [Hin|Hin]; [by apply (Hws p)|].
  apply elem_of_app in Hin as [Hin|Hin]; [|by apply (Hws p')].
  apply list_elem_of_fmap in Hin as (d & -> & Hd).
  eapply Forall_forall in Hds; [|done]. unfold hyphen, en_dash in Hc. lia.
Qed.

(** X7: a score text made of two numerals of at most 640 ASCII digits
    each, around one hyphen or one en-dash, with any whitespace before,
    between and after, parses to the values of the two numerals, under
    every setting of the interpreter. *)
Theorem X7_padded_numerals_parse env sep ds1 ds2 p1 p2 p3 p4 :
  sep = hyphen ∨ sep = en_dash →
  ds1 ≠ [] → ds2 ≠ [] →
  Forall (λ d, d < 10)%N ds1 → Forall (λ d, d < 10)%N ds2 →
  (length ds1 ≤ 640)%nat → (length ds2 ≤ 640)%nat →
  Forall (λ c, isspace c = true) p1 → Forall (λ c, isspace c = true) p2 →
  Forall (λ c, isspace c = true) p3 → Forall (λ c, isspace c = true) p4 →
  App.parse_score env
    ((p1 ++ decimal ds1 ++ p2) ++ sep :: (p3 ++ decimal ds2 ++ p4))
  = Ok (Some (Z.of_N (decimal_value ds1), Z.of_N (decimal_value ds2))).
Proof.
  intros Hsep Hne1 Hne2 Hds1 Hds2 Hl1 Hl2 Hp1 Hp2 Hp3 Hp4.
  set (A := p1 ++ decimal ds1 ++ p2). set (B := p3 ++ decimal ds2 ++ p4).
  assert (∀ c, c = hyphen ∨ c = en_dash → c ∉ A) as HA
    by (intros; by apply padded_numeral_no_separator).
  assert (∀ c, c = hyphen ∨ c = en_dash → c ∉ B) as HB
    by (intros; by apply padded_numeral_no_separator).
  assert (∀ ds, ds ≠ [] → Forall (λ d, d < 10)%N ds →
            decimal ds ≠ [] ∧ Forall (λ c, isspace c = false) (decimal ds))
    as Hdec.
  { intros ds Hne Hds. split; [by destruct ds|].
    apply Forall_fmap. eapply Forall_impl; [done|]. intros d Hd. simpl.
    by apply isspace_not_digit. }
  assert (split sep (A ++ sep :: B) = [A; B]) as Hsplit.
  { rewrite split_at_sep by (apply HA; tauto).
    by rewrite split_without_sep by (apply HB; tauto). }
  assert (contains en_dash (A ++ sep :: B) = bool_decide (sep = en_dash)) as Hen.
  { unfold contains. apply bool_decide_ext. rewrite elem_of_app, elem_of_cons.
    split; [|by intros ->; right; left].
    intros [?|[?|?]]; [by destruct (HA en_dash); auto | done
                      | by destruct (HB en_dash); auto]. }
  unfold App.parse_score.
  rewrite (bool_decide_eq_false_2 (A ++ sep :: B = []))
    by (intros Heq; by apply app_eq_nil in Heq as [_ ?]).
  rewrite Hen.
  assert (contains hyphen (A ++ sep :: B) = bool_decide (sep = hyphen)) as Hhy.
  { unfold contains. apply bool_decide_ext. rewrite elem_of_app, elem_of_cons.
    split; [|by intros ->; right; left].
    intros [?|[?|?]]; [by destruct (HA hyphen); auto | done
                      | by destruct (HB hyphen); auto]. }
  rewrite Hhy.
  assert ((if bool_decide (sep = en_dash) then split en_dash (A ++ sep :: B)
           else split hyphen (A ++ sep :: B)) = [A; B]) as ->.
  { destruct Hsep as [-> | ->]; [by rewrite bool_decide_eq_false_2 | ].
    by rewrite bool_decide_eq_true_2. }
  assert (false || negb (bool_decide (sep = en_dash))
                   && negb (bool_decide (sep = hyphen)) = false) as ->.
  { destruct Hsep as [-> | ->]; [by rewrite (bool_decide_eq_true_2 (hyphen = hyphen)),
                                      andb_false_r|].
    by rewrite (bool_decide_eq_true_2 (en_dash = en_dash)). }
  simpl. unfold A, B.
  destruct (Hdec ds1) as [? ?]; [done..|]. destruct (Hdec ds2) as [? ?]; [done..|].
  rewrite !strip_padded by done.
  by rewrite !py_int_decimal by done.
Qed.

Lemma X7_witness :
  App.parse_score ascii_env (u " 2 - 1 ") = Ok (Some (2, 1)).
Proof.
  apply (X7_padded_numerals_parse ascii_env hyphen [2%N] [1%N]
           [32%N] [32%N] [32%N] [32%N]);
    try (by left); try done; try (simpl; lia);
    repeat constructor; lia.
Defined.

(** X8: a score text is split at every occurrence of its separator (the
    en-dash when it has one, else the hyphen) and must give exactly two
    parts: a row whose score text holds the separator more than once, as
    "1-2-3", is skipped. *)
Theorem X8_repeated_separator_skips_row
    env name id d h s a hx ax row score :
  cell_text row s = Some score →
  occurrences (separator_of score) score ≠ 1%nat →
  App.scrape_row env name id d h s a hx ax row = Ok None.
Proof.
  intros Hscore Hocc. eapply app_scrape_row_skipped; [done|].
  intros v Hp. unfold App.parse_score in Hp.
  destruct (bool_decide (score = []) || _); [done|].
  inv_bind Hp. destruct v0 as [p q]. apply unpack2_Ok in Hv.
  apply (f_equal length) in Hv. unfold separator_of in Hocc.
  destruct (contains en_dash score); rewrite length_split in Hv;
    simpl in Hv; lia.
Qed.

Lemma X8_witness :
  App.scrape_row ascii_env (u "La Liga") 12 0 1 2 3 None None
    (tr ["2024-08-17"; "Girona"; "1-2-3"; "Betis"]%string) = Ok None.
Proof.
  apply (X8_repeated_separator_skips_row ascii_env (u "La Liga") 12 0 1 2 3
           None None _ (u "1-2-3")); [reflexivity|].
  vm_compute. lia.
Defined.

(** * Further properties of the analyzer *)

(** The rows of a team's results are the views of its matches. *)
Lemma elem_of_get_team_results df team r :
  r ∈ App.get_team_results df team ↔
  ∃ m, m ∈ df ∧
       ((App.home_team m = team ∧ r = App.with_result (App.home_view m)) ∨
        (App.away_team m = team ∧ r = App.with_result (App.away_view m))).
Proof.
  unfold App.get_team_results.
  rewrite sort_values_desc_Permutation, fmap_app, elem_of_app.
  rewrite <- !list_fmap_compose, !list_elem_of_fmap.
  setoid_rewrite list_elem_of_filter. split.
  - intros [(m & -> & Hh & Hm) | (m & -> & Ha & Hm)]; exists m;
      (split; [done|]); [left | right]; by split.
  - intros (m & Hm & [[Hh ->] | [Ha ->]]); [left | right]; by exists m.
Qed.

Lemma outcome_of_opposite x y : outcome_of y x = opposite (outcome_of x y).
Proof.
  unfold outcome_of.
  destruct (Z.ltb_spec y x), (Z.ltb_spec x y); simpl; try done; lia.
Qed.

(** X9: every match of a frame shows up in the results of both its teams,
    as a [Home] row for the home team and an [Away] row for the away team,
    with the same date, each naming the other as opponent, the two scores
    exchanged, and opposite results: a win for one is a loss for the
    other, a draw is a draw for both. *)
Theorem X9_two_views_of_a_match df m :
  m ∈ df →
  ∃ rh ra,
    rh ∈ App.get_team_results df (App.home_team m) ∧
    ra ∈ App.get_team_results df (App.away_team m) ∧
    App.r_location rh = Home ∧ App.r_location ra = Away ∧
    App.r_opponent rh = App.away_team m ∧
    App.r_opponent ra = App.home_team m ∧
    App.r_date rh = App.date m ∧ App.r_date ra = App.date m ∧
    App.r_team_score rh = App.home_score m ∧
    App.r_opp_score rh = App.away_score m ∧
    App.r_team_score ra = App.r_opp_score rh ∧
    App.r_opp_score ra = App.r_team_score rh ∧
    App.result ra = opposite (App.result rh).
Proof.
  intros Hm.
  exists (App.with_result (App.home_view m)), (App.with_result (App.away_view m)).
  split; [apply elem_of_get_team_results; eauto 6|].
  split; [apply elem_of_get_team_results; eauto 6|].
  simpl. repeat split; try done. apply outcome_of_opposite.
Qed.

Lemma X9_witness :
  ∃ rh ra,
    rh ∈ App.get_team_results streak_frame (u "Celta") ∧
    ra ∈ App.get_team_results streak_frame (u "Girona") ∧
    App.r_location rh = Home ∧ App.r_location ra = Away ∧
    App.r_opponent rh = u "Girona" ∧ App.r_opponent ra = u "Celta" ∧
    App.r_date rh = u "2024-09-29" ∧ App.r_date ra = u "2024-09-29" ∧
    App.r_team_score rh = 0 ∧ App.r_opp_score rh = 2 ∧
    App.r_team_score ra = App.r_opp_score rh ∧
    App.r_opp_score ra = App.r_team_score rh ∧
    App.result ra = opposite (App.result rh).
Proof.
  apply (X9_two_views_of_a_match streak_frame
           (fixture "2024-09-29" "Celta" 0 2 "Girona")).
  unfold streak_frame. apply elem_of_cons. right. apply elem_of_cons. by left.
Defined.

Lemma length_join_outcomes (rows : list App.TeamResult) :
  length (join (outcome_str ∘ App.result <$> rows)) = length rows.
Proof.
  unfold join. induction rows as [|r rows IH]; [done|].
  rewrite fmap_cons. cbn [concat compose]. rewrite length_app, IH.
  by destruct (App.result r).
Qed.

Lemma length_str_repeat_outcome o count :
  length (str_repeat (outcome_str o) count) = Z.to_nat count.
Proof.
  unfold str_repeat. induction (Z.to_nat count) as [|n IH]; [done|].
  cbn [replicate concat]. rewrite length_app, IH. by destruct o.
Qed.

Lemma all_are_Forall o rows :
  all_are o rows = true ↔ Forall (λ r, App.result r = o) rows.
Proof.
  unfold all_are. rewrite forallb_forall, Forall_forall.
  split; intros H r Hr.
  - apply list_elem_of_In, H in Hr. by apply bool_decide_eq_true in Hr.
  - apply bool_decide_eq_true, H. by apply list_elem_of_In.
Qed.

(** For any count: the joined results of a window equal the repeated
    letter only if the window has that many rows, all with that result. *)
Lemma join_eq_repeat_count o count (rows : list App.TeamResult) :
  join (outcome_str ∘ App.result <$> rows) = str_repeat (outcome_str o) count →
  length rows = Z.to_nat count ∧ Forall (λ r, App.result r = o) rows.
Proof.
  intros Heq. assert (length rows = Z.to_nat count) as Hlen.
  { apply (f_equal length) in Heq.
    by rewrite length_join_outcomes, length_str_repeat_outcome in Heq. }
  split; [done|]. apply all_are_Forall, join_eq_repeat.
  rewrite Heq. unfold str_repeat. by rewrite Hlen, Nat2Z.id.
Qed.

(** What a check appends, in full. *)
Lemma check_streak_entry o count team results streaks streaks' :
  App.check_streak o count team results streaks = Ok streaks' →
  streaks' = streaks ∨
  ∃ first,
    1 ≤ count ∧ count ≤ Z.of_nat (length results) ∧
    results !! 0%nat = Some first ∧
    Forall (λ r, App.result r = o) (take (Z.to_nat count) results) ∧
    streaks' = streaks ++
      [ {| App.team := team;
           App.s_league_name := App.r_league_name first;
           App.s_league_id := App.r_league_id first;
           App.games := take (Z.to_nat count) results |} ].
Proof.
  unfold App.check_streak. intros H.
  case_bool_decide as Hlen; [|left; by simplify_eq].
  case_bool_decide as Hstr; [|left; by simplify_eq].
  inv_bind H. apply or_raise_Ok in Hv. simplify_eq.
  right. exists v.
  apply join_eq_repeat_count in Hstr as [Hcount Hall].
  assert (1 ≤ count) as Hpos.
  { destruct (head count results); [done|]. simpl in Hcount. lia. }
  rewrite head_nonneg in * by lia.
  split; [done|]. split; [done|].
  split; [by apply lookup_take_Some in Hv as [? _]|]. by split.
Qed.

(** X10: whenever the analyzer returns, whatever the two lengths: an entry
    of the win list holds exactly [win_streak_count] rows, at least one,
    which are the most recent results of its team and are all wins; the
    team has at least [max(win_streak_count, loss_streak_count)] results;
    and the league name and identifier of the entry are those of the
    team's most recent match. The same holds for the loss list, with
    [loss_streak_count] and losses. *)
Theorem X10_streak_entries_well_formed set_iter df w l wins losses :
  App.find_game_streaks set_iter df w l = Ok (wins, losses) →
  let well_formed o count s :=
    let results := App.get_team_results df (App.team s) in
    1 ≤ count ∧ Z.max w l ≤ Z.of_nat (length results) ∧
    App.games s = take (Z.to_nat count) results ∧
    length (App.games s) = Z.to_nat count ∧
    Forall (λ r, App.result r = o) (App.games s) ∧
    ∃ first, results !! 0%nat = Some first ∧
             App.s_league_name s = App.r_league_name first ∧
             App.s_league_id s = App.r_league_id first in
  Forall (well_formed Win w) wins ∧ Forall (well_formed Loss l) losses.
Proof.
  intros H well_formed. revert H. unfold App.find_game_streaks.
  apply (for_in_invariant
           (λ st : list App.Streak * list App.Streak,
              Forall (well_formed Win w) st.1 ∧
              Forall (well_formed Loss l) st.2)).
  { split; constructor. }
  intros [ws ls] team [ws' ls'] _ [Hws Hls] Hbody. simpl in *.
  case_bool_decide as Hneed; [simplify_eq; by split|].
  inv_bind Hbody. inv_bind Hbody. simplify_eq.
  assert (∀ o count first,
            1 ≤ count → count ≤ Z.of_nat (length (App.get_team_results df team)) →
            App.get_team_results df team !! 0%nat = Some first →
            Forall (λ r, App.result r = o)
                   (take (Z.to_nat count) (App.get_team_results df team)) →
            well_formed o count
              {| App.team := team;
                 App.s_league_name := App.r_league_name first;
                 App.s_league_id := App.r_league_id first;
                 App.games := take (Z.to_nat count)
                                (App.get_team_results df team) |}) as Hentry.
  { intros o count first Hpos Hlen Hfirst Hall. unfold well_formed. simpl.
    split; [done|]. split; [lia|]. split; [done|].
    split; [rewrite length_take; lia|]. split; [done|]. by exists first. }
  split.
  - apply check_streak_entry in Hv
      as [->|(first & ? & ? & ? & ? & ->)]; [done|].
    apply Forall_app. split; [done|]. apply Forall_singleton. by apply Hentry.
  - apply check_streak_entry in Hv0
      as [->|(first & ? & ? & ? & ? & ->)]; [done|].
    apply Forall_app. split; [done|]. apply Forall_singleton. by apply Hentry.
Qed.

Lemma X10_witness :
  ∃ wins losses,
    App.find_game_streaks elements streak_frame 3 2 = Ok (wins, losses) ∧
    length wins = 1%nat ∧
    Forall (λ s,
      let results := App.get_team_results streak_frame (App.team s) in
      1 ≤ 3 ∧ Z.max 3 2 ≤ Z.of_nat (length results) ∧
      App.games s = take (Z.to_nat 3) results ∧
      length (App.games s) = Z.to_nat 3 ∧
      Forall (λ r, App.result r = Win) (App.games s) ∧
      ∃ first, results !! 0%nat = Some first ∧
               App.s_league_name s = App.r_league_name first ∧
               App.s_league_id s = App.r_league_id first) wins.
Proof.
  destruct (App.find_game_streaks elements streak_frame 3 2)
    as [[wins losses]|e] eqn:Hrun; [|vm_compute in Hrun; discriminate].
  exists wins, losses. split; [done|].
  split; [vm_compute in Hrun; by injection Hrun as <- <-|].
  exact (proj1 (X10_streak_entries_well_formed elements streak_frame 3 2
                  wins losses Hrun)).
Defined.

(** The teams of the entries follow the order in which the teams are
    visited, each at most once. *)
Lemma find_game_streaks_follow_iteration set_iter df w l wins losses :
  App.find_game_streaks set_iter df w l = Ok (wins, losses) →
  App.team <$> wins `sublist_of` set_iter (App.teams df) ∧
  App.team <$> losses `sublist_of` set_iter (App.teams df).
Proof.
  unfold App.find_game_streaks.
  generalize (set_iter (App.teams df)). intros xs.
  assert (∀ ws ls,
    for_in xs
      (λ '(win_streaks, loss_streaks) team,
         let results := App.get_team_results df team in
         if bool_decide (Z.of_nat (length results) < Z.max w l)
         then Ok (win_streaks, loss_streaks)
         else
           win_streaks ← App.check_streak Win w team results win_streaks;
           loss_streaks ← App.check_streak Loss l team results loss_streaks;
           Ok (win_streaks, loss_streaks))
      (ws, ls) = Ok (wins, losses) →
    ∃ nw nl, wins = ws ++ nw ∧ losses = ls ++ nl ∧
             App.team <$> nw `sublist_of` xs ∧
             App.team <$> nl `sublist_of` xs) as Hgen.
  { induction xs as [|x xs IH]; intros ws ls H; simpl in H.
    - simplify_eq. exists [], []. by rewrite !app_nil_r.
    - inv_bind H. destruct v as [ws1 ls1].
      apply IH in H as (nw & nl & -> & -> & Hnw & Hnl).
      case_bool_decide.
      + simplify_eq. exists nw, nl. repeat split; try done;
          by apply sublist_cons.
      + inv_bind Hv. inv_bind Hv. simplify_eq.
        apply check_streak_Ok in Hv0 as [->|(f1 & s1 & _ & _ & <- & ->)];
          apply check_streak_Ok in Hv1 as [->|(f2 & s2 & _ & _ & Ht & ->)].
        * exists nw, nl. repeat split; try done; by apply sublist_cons.
        * exists nw, (s2 :: nl). rewrite <- !app_assoc. repeat split; try done.
          -- by apply sublist_cons.
          -- rewrite fmap_cons, Ht. by apply sublist_skip.
        * exists (s1 :: nw), nl. rewrite <- !app_assoc. repeat split; try done.
          -- rewrite fmap_cons. by apply sublist_skip.
          -- by apply sublist_cons.
        * exists (s1 :: nw), (s2 :: nl). rewrite <- !app_assoc.
          repeat split; try done.
          -- rewrite fmap_cons. by apply sublist_skip.
          -- rewrite fmap_cons, Ht. by apply sublist_skip. }
  intros H. apply (Hgen [] []) in H as (nw & nl & -> & -> & ? & ?). done.
Qed.

(** X11: when the teams of a set are visited once each, no team is listed
    twice in the win list, nor in the loss list, and every team listed
    plays in some match of the frame. *)
Theorem X11_teams_listed_once set_iter df w l wins losses :
  set_order set_iter →
  App.find_game_streaks set_iter df w l = Ok (wins, losses) →
  NoDup (App.team <$> wins) ∧ NoDup (App.team <$> losses) ∧
  ∀ s, s ∈ wins ++ losses → ∃ m, m ∈ df ∧ plays_in (App.team s) m.
Proof.
  intros Hiter H.
  apply find_game_streaks_follow_iteration in H as [Hw Hl].
  assert (NoDup (set_iter (App.teams df))) as Hnodup
    by (rewrite (Hiter _); apply NoDup_elements).
  split; [by eapply sublist_NoDup|]. split; [by eapply sublist_NoDup|].
  intros s Hs.
  assert (App.team s ∈ set_iter (App.teams df)) as Hin.
  { apply elem_of_app in Hs as [Hs|Hs];
      [eapply elem_of_sublist; [|exact Hw] | eapply elem_of_sublist; [|exact Hl]];
      by apply list_elem_of_fmap_2. }
  rewrite (Hiter _) in Hin. apply elem_of_elements in Hin.
  unfold App.teams, plays_in in *.
  apply elem_of_union in Hin as [Hin|Hin];
    apply elem_of_list_to_set, elem_of_remove_dups, list_elem_of_fmap in Hin
      as (m & Hm & ?); exists m; split; auto.
Qed.

Lemma X11_witness :
  ∃ wins losses,
    App.find_game_streaks elements streak_frame 3 2 = Ok (wins, losses) ∧
    NoDup (App.team <$> wins) ∧ NoDup (App.team <$> losses) ∧
    ∀ s, s ∈ wins ++ losses → ∃ m, m ∈ streak_frame ∧ plays_in (App.team s) m.
Proof.
  destruct (App.find_game_streaks elements streak_frame 3 2)
    as [[wins losses]|e] eqn:Hrun; [|vm_compute in Hrun; discriminate].
  exists wins, losses. split; [done|].
  apply (X11_teams_listed_once elements streak_frame 3 2 wins losses);
    [intros X; reflexivity | exact Hrun].
Defined.

(** X12: with two positive lengths the analyzer returns, and a team is in
    the win list exactly when it has at least
    [max(win_streak_count, loss_streak_count)] results and its
    [win_streak_count] most recent results are all wins; likewise for the
    loss list. So a draw among these results keeps the team out, and so
    does a history shorter than the longer of the two lengths. *)
Theorem X12_group_membership set_iter df w l team :
  set_order set_iter → 1 ≤ w → 1 ≤ l →
  ∃ wins losses,
    App.find_game_streaks set_iter df w l = Ok (wins, losses) ∧
    (team ∈ App.team <$> wins ↔
     Z.max w l ≤ Z.of_nat (length (App.get_team_results df team)) ∧
     Forall (λ r, App.result r = Win)
            (take (Z.to_nat w) (App.get_team_results df team))) ∧
    (team ∈ App.team <$> losses ↔
     Z.max w l ≤ Z.of_nat (length (App.get_team_results df team)) ∧
     Forall (λ r, App.result r = Loss)
            (take (Z.to_nat l) (App.get_team_results df team))).
Proof.
  intros Hiter Hw Hl. rewrite find_game_streaks_positive by done.
  do 2 eexists. split; [reflexivity|].
  set (need := Nat.max (Z.to_nat w) (Z.to_nat l)).
  assert (∀ o count, (1 ≤ count)%nat →
    (team ∈ App.team <$> (set_iter (App.teams df)
                           ≫= streak_entry o count need df) ↔
     Z.max w l ≤ Z.of_nat (length (App.get_team_results df team)) ∧
     Forall (λ r, App.result r = o)
            (take count (App.get_team_results df team)))) as Hiff.
  { intros o count Hcount. rewrite list_elem_of_fmap.
    setoid_rewrite list_elem_of_bind. split.
    - intros (s & Hs_team & y & Hs & _).
      apply streak_entry_team in Hs as Hy.
      assert (y = team) as -> by congruence.
      unfold streak_entry in Hs.
      destruct (take count _) as [|first rest] eqn:Htake;
        [by apply elem_of_nil in Hs|].
      destruct (bool_decide _ && _) eqn:Hcond; [|by apply elem_of_nil in Hs].
      apply andb_true_iff in Hcond as [Hneed Hall].
      apply bool_decide_eq_true in Hneed. apply all_are_Forall in Hall.
      split; [unfold need in Hneed; lia | done].
    - intros [Hneed Hall].
      assert (team ∈ set_iter (App.teams df)) as Hteam.
      { rewrite (Hiter _). apply elem_of_elements, results_team_in_teams.
        intros Hnil. rewrite Hnil in Hneed. simpl in Hneed. lia. }
      unfold streak_entry.
      destruct (take count (App.get_team_results df team))
        as [|first rest] eqn:Htake.
      { apply (f_equal length) in Htake. rewrite length_take in Htake.
        simpl in Htake. lia. }
      eexists. split; [|exists team; split; [|done]].
      2:{ unfold streak_entry. rewrite Htake.
          rewrite bool_decide_eq_true_2 by (unfold need; lia).
          rewrite (proj2 (all_are_Forall _ _) Hall). simpl. by left. }
      done. }
  split; apply Hiff; lia.
Qed.

Lemma X12_witness :
  ∃ wins losses,
    App.find_game_streaks elements streak_frame 3 2 = Ok (wins, losses) ∧
    (u "Girona" ∈ App.team <$> wins ↔
     Z.max 3 2 ≤ Z.of_nat (length (App.get_team_results streak_frame (u "Girona"))) ∧
     Forall (λ r, App.result r = Win)
            (take (Z.to_nat 3) (App.get_team_results streak_frame (u "Girona")))) ∧
    (u "Girona" ∈ App.team <$> losses ↔
     Z.max 3 2 ≤ Z.of_nat (length (App.get_team_results streak_frame (u "Girona"))) ∧
     Forall (λ r, App.result r = Loss)
            (take (Z.to_nat 2) (App.get_team_results streak_frame (u "Girona")))).
Proof.
  apply (X12_group_membership elements streak_frame 3 2 (u "Girona"));
    [intros X; reflexivity | lia | lia].
Defined.
